(** * Shallow embedding of the tb-api-backend telemetry engine

    Sources: [src/pack_format.py] (pack codec), [src/alarm_logic.py]
    (floor model, motion tracker, alarm rules, [check_alarm]) and
    [src/lift-simulator/live_counters.py] (live counters aggregator).

    Modelling conventions.
    - Python [float] values (heights, sensor readings, wall-clock seconds)
      are modelled as exact rationals [Q]; Python [int] as [Z].
    - Python [str] is [string] (ASCII characters).
    - A Python [dict] keyed by strings is a stdpp [gmap string _]; the
      module-level dictionaries of [alarm_logic.py] are fields of an explicit
      store record threaded through the operations.
    - A call to [_create_alarm_on_tb] is modelled as the emission of an
      [alarm] value (type, severity, details); the platform round trip that
      follows it is outside the model. *)

From Stdlib Require Import QArith Qabs Lqa.
From stdpp Require Import base gmap strings list.
From Stdlib Require Import Ascii String ZArith Lia.

Open Scope string_scope.

(* ------------------------------------------------------------------ *)
(** ** Character and string helpers (Python [str] methods) *)

Definition ascii_code (c : ascii) : nat := nat_of_ascii c.

(** [str.isspace] restricted to ASCII: \t \n \v \f \r, \x1c-\x1f and space. *)
Definition is_space (c : ascii) : bool :=
  let n := ascii_code c in
  (Nat.leb 9 n && Nat.leb n 13) || (Nat.leb 28 n && Nat.leb n 32).

Fixpoint drop_spaces (l : list ascii) : list ascii :=
  match l with
  | c :: r => if is_space c then drop_spaces r else l
  | [] => []
  end.

(** [str.strip()] *)
Definition strip_list (l : list ascii) : list ascii :=
  rev (drop_spaces (rev (drop_spaces l))).

Definition strip (s : string) : string :=
  string_of_list_ascii (strip_list (list_ascii_of_string s)).

(** [s.split(c)]: Python keeps empty pieces, and [""].split gives [[""]]. *)
Fixpoint split_on (c : ascii) (s : string) : list string :=
  match s with
  | EmptyString => [EmptyString]
  | String x r =>
      if Ascii.eqb x c then EmptyString :: split_on c r
      else match split_on c r with
           | h :: t => String x h :: t
           | [] => [String x EmptyString]
           end
  end.

(** [eq = pair.find(c)] followed by [pair[:eq]] and [pair[eq+1:]];
    [None] when [find] returns -1. *)
Fixpoint split_first (c : ascii) (s : string) : option (string * string) :=
  match s with
  | EmptyString => None
  | String x r =>
      if Ascii.eqb x c then Some (EmptyString, r)
      else match split_first c r with
           | Some (a, b) => Some (String x a, b)
           | None => None
           end
  end.

(* ------------------------------------------------------------------ *)
(** ** Pack codec ([pack_format.py]) *)

(** Values stored in a parsed pack: [None], [int], [float] or [str]. *)
Inductive pval :=
| PNone
| PInt (n : Z)
| PFloat (q : Q)
| PStr (s : string).

Definition DEFAULT_INT_KEYS : list string := ["v"; "ts"; "fi"; "door"; "home_floor"].

Definition DEFAULT_FLOAT_KEYS : list string :=
  ["h"; "laser_val"; "height_raw";
   "accel_x_val"; "accel_y_val"; "accel_z_val";
   "gyro_x_val"; "gyro_y_val"; "gyro_z_val";
   "mpu_temp_val"; "humidity_val"; "mic_val";
   "x_vibe"; "y_vibe"; "z_vibe";
   "x_jerk"; "y_jerk"; "z_jerk";
   "temperature"; "humidity"; "sound_level";
   "vel"].

Definition mem_key (k : string) (ks : list string) : bool :=
  existsb (String.eqb k) ks.

Section PackCodec.
  (** The two guarded conversions [_to_int] and [_to_float]: both catch
      [ValueError]/[TypeError] and return [None], hence total functions to
      [option].  The codec is stated for any such pair of conversions. *)
  Variable to_int : string -> option Z.
  Variable to_float : string -> option Q.

  (** [_coerce_value] *)
Definition coerce_value (key val : string) (int_keys float_keys : list string) : pval :=
    if String.eqb val "" then PNone
    else if mem_key key int_keys then
      match to_int val with Some n => PInt n | None => PStr val end
    else if mem_key key float_keys then
      match to_float val with Some f => PFloat f | None => PStr val end
    else PStr val.

  (** The body of the loop of [parse_pack_raw] for one segment [pair]:
      [None] is a [continue]. *)
Definition segment_entry (pair : string) : option (string * string) :=
    if String.eqb pair "" then None
    else match split_first "=" pair with
         | None => None
         | Some (k0, v0) =>
             let k := strip k0 in
             let v := strip v0 in
             if String.eqb k "" then None else Some (k, v)
         end.

  (** [parse_pack_raw(s, int_keys=.., float_keys=..)] with
      [lowercase_keys=False]; the extra key lists extend the defaults. *)
Definition parse_pack_raw_with (extra_int extra_float : list string) (s : string)
    : gmap string pval :=
    if String.eqb s "" then ∅
    else
      let ik := (DEFAULT_INT_KEYS ++ extra_int)%list in
      let fk := (DEFAULT_FLOAT_KEYS ++ extra_float)%list in
      fold_left
        (fun (out : gmap string pval) pair =>
           match segment_entry pair with
           | Some (k, v) => <[k := coerce_value k v ik fk]> out
           | None => out
           end)
        (split_on "|" s) ∅.
End PackCodec.

(** *** The conversions [_to_int] and [_to_float]

    [int(v)] accepts surrounding whitespace, an optional sign and decimal
    digits, with single underscores between digits.  [float(v)] accepts in
    addition a fraction and an exponent; its special spellings
    [inf]/[nan] are rejected by [_to_float] itself, and so are absent
    here.  (Overflow of [float] to infinity on huge exponents is not
    modelled.) *)

Definition digit_val (c : ascii) : option Z :=
  let n := ascii_code c in
  if Nat.leb 48 n && Nat.leb n 57 then Some (Z.of_nat (n - 48)) else None.

(** digits ( ['_'] digit )* after a first digit: value, digit count, rest *)
Fixpoint digitpart_go (acc : Z) (cnt : nat) (l : list ascii) : Z * nat * list ascii :=
  match l with
  | c :: r =>
      match digit_val c with
      | Some d => digitpart_go (acc * 10 + d) (S cnt) r
      | None =>
          if Ascii.eqb c "_" then
            match r with
            | c' :: r' =>
                match digit_val c' with
                | Some d => digitpart_go (acc * 10 + d) (S cnt) r'
                | None => (acc, cnt, l)
                end
            | [] => (acc, cnt, l)
            end
          else (acc, cnt, l)
      end
  | [] => (acc, cnt, l)
  end.

Definition digitpart (l : list ascii) : option (Z * nat * list ascii) :=
  match l with
  | c :: r => match digit_val c with
              | Some d => Some (digitpart_go d 1 r)
              | None => None
              end
  | [] => None
  end.

Definition take_sign (l : list ascii) : Z * list ascii :=
  match l with
  | c :: r => if Ascii.eqb c "+" then (1%Z, r)
              else if Ascii.eqb c "-" then ((-1)%Z, r) else (1%Z, l)
  | [] => (1%Z, l)
  end.

Definition _to_int (v : string) : option Z :=
  let '(sg, l) := take_sign (strip_list (list_ascii_of_string v)) in
  match digitpart l with
  | Some (n, _, []) => Some (sg * n)%Z
  | _ => None
  end.

(** mantissa: digitpart ['.' [digitpart]] | '.' digitpart;
    result: integer mantissa, number of fraction digits, rest *)
Definition mantissa (l : list ascii) : option (Z * nat * list ascii) :=
  match digitpart l with
  | Some (ip, _, rest) =>
      match rest with
      | c :: r =>
          if Ascii.eqb c "." then
            match digitpart r with
            | Some (fp, nd, rest') => Some (ip * 10 ^ Z.of_nat nd + fp, nd, rest')%Z
            | None => Some (ip, O, r)
            end
          else Some (ip, O, rest)
      | [] => Some (ip, O, rest)
      end
  | None =>
      match l with
      | c :: r =>
          if Ascii.eqb c "." then
            match digitpart r with
            | Some (fp, nd, rest') => Some (fp, nd, rest')
            | None => None
            end
          else None
      | [] => None
      end
  end.

(** optional exponent [eE][sign]digitpart, then end of input *)
Definition exponent (l : list ascii) : option Z :=
  match l with
  | [] => Some 0%Z
  | c :: r =>
      if Ascii.eqb c "e" || Ascii.eqb c "E" then
        let '(sg, r') := take_sign r in
        match digitpart r' with
        | Some (e, _, []) => Some (sg * e)%Z
        | _ => None
        end
      else None
  end.

Definition pow10_Q (e : Z) : Q :=
  if (0 <=? e)%Z then inject_Z (10 ^ e) else Qinv (inject_Z (10 ^ (- e))).

Definition _to_float (v : string) : option Q :=
  let '(sg, l) := take_sign (strip_list (list_ascii_of_string v)) in
  match mantissa l with
  | Some (m, nd, rest) =>
      match exponent rest with
      | Some e => Some (inject_Z (sg * m) * pow10_Q (e - Z.of_nat nd))%Q
      | None => None
      end
  | None => None
  end.

(** [parse_pack_raw(s)] with its default arguments. *)
Definition parse_pack_raw (s : string) : gmap string pval :=
  parse_pack_raw_with _to_int _to_float [] [] s.

(** [get_float(parsed, key, default)]: ints and finite floats convert,
    strings go through [_to_float], anything else gives [default]. *)
Definition get_float (parsed : gmap string pval) (key : string) (default : option Q)
  : option Q :=
  match parsed !! key with
  | Some (PInt n) => Some (inject_Z n)
  | Some (PFloat f) => Some f
  | Some (PStr s) => match _to_float s with Some f => Some f | None => default end
  | _ => default
  end.

(** [door_to_bit(val)] on the values a parsed pack can hold
    ([val] is [parsed.get(...)]: [None] when the key is absent). *)
Definition door_to_bit (val : option pval) : option Z :=
  match val with
  | Some (PStr s) =>
      let d := string_of_list_ascii
                 (map Ascii.ascii_of_nat
                    (map (fun c => let n := ascii_code c in
                                   if Nat.leb 97 n && Nat.leb n 122 then n - 32 else n)
                       (strip_list (list_ascii_of_string s)))) in
      if String.eqb d "OPEN" then Some 1%Z
      else if String.eqb d "CLOSED" || String.eqb d "CLOSE" then Some 0%Z
      else match _to_int d with
           | Some iv => Some (if Z.eqb iv 0 then 0%Z else 1%Z)
           | None => None
           end
  | Some (PInt n) => Some (if Z.eqb n 0 then 0%Z else 1%Z)
  | Some (PFloat f) => Some (if Z.eqb (Z.quot (Qnum f) (Zpos (Qden f))) 0 then 0%Z else 1%Z)
  | _ => None
  end.

(* ------------------------------------------------------------------ *)
(** ** Floor model ([alarm_logic.py]) *)

Definition Qltb (a b : Q) : bool := negb (Qle_bool b a).

(** [str(i)] for a natural number *)
Fixpoint digits_rev (fuel n : nat) : list ascii :=
  match fuel with
  | O => []
  | S f =>
      let d := Ascii.ascii_of_nat (48 + Nat.modulo n 10) in
      if Nat.ltb n 10 then [d] else d :: digits_rev f (Nat.div n 10)
  end.

Definition string_of_nat (n : nat) : string :=
  string_of_list_ascii (rev (digits_rev (S n) n)).

(** Server attribute values as returned by the platform's JSON. *)
Inductive attrval :=
| AStr (s : string)
| AInt (n : Z)
| AFloat (q : Q)
| AOther.

(** [s.lstrip("-").isdigit()] *)
Fixpoint drop_dashes (l : list ascii) : list ascii :=
  match l with
  | c :: r => if Ascii.eqb c "-" then drop_dashes r else l
  | [] => []
  end.

Definition isdigit_list (l : list ascii) : bool :=
  match l with
  | [] => false
  | _ => forallb (fun c => match digit_val c with Some _ => true | None => false end) l
  end.

Definition lstrip_dash_isdigit (s : string) : bool :=
  isdigit_list (drop_dashes (list_ascii_of_string s)).

(** [[int(x.strip()) for x in fb_raw.split(",") if x.strip().lstrip("-").isdigit()]];
    [None] when one [int(..)] raises (e.g. on ["--5"]), which aborts the
    whole [try] block. *)
Fixpoint parse_boundaries_list (xs : list string) : option (list Z) :=
  match xs with
  | [] => Some []
  | x :: r =>
      let t := strip x in
      if lstrip_dash_isdigit t then
        match _to_int t, parse_boundaries_list r with
        | Some n, Some ns => Some (n :: ns)
        | _, _ => None
        end
      else parse_boundaries_list r
  end.

(** [int(hf_raw)] guarded by [isinstance(..)] and [f"{hf_raw}".lstrip("-").isdigit()]:
    [Some None] when the guard fails, [None] when [int] raises. A float
    never passes the guard ([str] of a float has a dot, an exponent or is
    [inf]/[nan]). *)
Definition parse_home_floor (hf : option attrval) : option (option Z) :=
  match hf with
  | Some (AInt n) => Some (Some n)
  | Some (AStr s) =>
      if lstrip_dash_isdigit s then
        match _to_int s with Some n => Some (Some n) | None => None end
      else Some None
  | _ => Some None
  end.

(** The [try] block of [_get_floor_meta]: [fetched] is the attribute map
    returned by [_fetch_server_attributes], or [None] when the device id is
    unknown or the fetch raised.  Returns [(boundaries, labels, home_floor)]
    as they stand after the block, before the defaults are applied. *)
Definition floor_meta_attrs (fetched : option (gmap string attrval))
  : list Z * list string * option Z :=
  match fetched with
  | None => ([], [], None)
  | Some attrs =>
      match
        match attrs !! "floor_boundaries" with
        | Some (AStr fb) => parse_boundaries_list (split_on "," fb)
        | _ => Some []
        end
      with
      | None => ([], [], None)
      | Some bs =>
          let ls := match attrs !! "floor_labels" with
                    | Some (AStr fl) => map strip (split_on "," fl)
                    | _ => []
                    end in
          match parse_home_floor (attrs !! "home_floor") with
          | Some hf => (bs, ls, hf)
          | None => (bs, ls, None)
          end
      end
  end.

Definition DEFAULT_BOUNDARIES : list Z := [0; 3000; 6000; 9000; 12000; 15000; 18000]%Z.

(** [_get_floor_meta] after a cache miss: the attribute block, then the
    defaults for empty boundaries and labels, then [labels[:len(b)-1]]. *)
Definition _get_floor_meta (fetched : option (gmap string attrval))
  : list Z * list string * option Z :=
  let '(bs0, ls0, hf) := floor_meta_attrs fetched in
  let bs := match bs0 with [] => DEFAULT_BOUNDARIES | _ => bs0 end in
  let ls1 := match ls0 with
             | [] => map string_of_nat (seq 0 (List.length bs - 1))
             | _ => ls0
             end in
  (bs, take (List.length bs - 1) ls1, hf).

(** The loop of [_floor_index]: [Some i] is [return i] from inside it. *)
Fixpoint floor_index_loop (h : Q) (i : nat) (bs : list Z) : option nat :=
  match bs with
  | b0 :: ((b1 :: _) as rest) =>
      if Qle_bool (inject_Z b0) h && Qltb h (inject_Z b1) then Some i
      else floor_index_loop h (S i) rest
  | _ => None
  end.

Definition _floor_index (h : Q) (bs : list Z) : nat :=
  if Nat.ltb (List.length bs) 2 then 0
  else match floor_index_loop h 0 bs with
       | Some i => i
       | None => List.length bs - 2
       end.

(** [_compute_height]: [h], else [max(0, boundaries[-1] - laser_val)],
    else [height_raw], else [0.0]. *)
Definition _compute_height (parsed : gmap string pval) (bs : list Z) : Q :=
  match get_float parsed "h" None with
  | Some h => h
  | None =>
      match get_float parsed "laser_val" None, last bs with
      | Some laser, Some maxb =>
          let d := (inject_Z maxb - laser)%Q in if Qltb 0 d then d else 0
      | _, _ =>
          match get_float parsed "height_raw" None with
          | Some hr => hr
          | None => 0
          end
      end
  end.

(* ------------------------------------------------------------------ *)
(** ** Motion tracker ([_derive_motion]) *)

Definition MOVEMENT_DEADBAND_MM : Q := 20.

(** An entry of [_movement_state]: the keys ["prev_h"] and ["last_ts"]. *)
Record motion_entry := { prev_h : option Q; last_ts : option Z }.

Definition empty_motion : motion_entry := {| prev_h := None; last_ts := None |}.

(** [_derive_motion(device, h)]; [now_ms] is [int(time.time() * 1000)]. *)
Definition _derive_motion (ms : gmap string motion_entry) (device : string) (h : Q)
  (now_ms : Z) : gmap string motion_entry * (string * string * Q) :=
  let st := default empty_motion (ms !! device) in
  let st' := {| prev_h := Some h; last_ts := Some now_ms |} in
  match prev_h st with
  | None => (<[device := st']> ms, ("S", "I", 0%Q))
  | Some p =>
      let vel := (h - p)%Q in
      let '(dirc, status) :=
        if Qltb MOVEMENT_DEADBAND_MM vel then ("U", "M")
        else if Qltb vel (- MOVEMENT_DEADBAND_MM) then ("D", "M")
        else ("S", "I") in
      (<[device := st']> ms, (dirc, status, vel))
  end.

(* ------------------------------------------------------------------ *)
(** ** Alarm rule engine ([alarm_logic.py]) *)

From Stdlib Require Import QArith.Qround.

(** [int(x)] on a float: truncation toward zero. *)
Definition py_int (q : Q) : Z := Z.quot (Qnum q) (Zpos (Qden q)).

(** [round(x)]: round half to even. *)
Definition round_half_even (q : Q) : Z :=
  let f := Qfloor q in
  let r := (q - inject_Z f)%Q in
  if Qltb r (1 # 2) then f
  else if Qltb (1 # 2) r then (f + 1)%Z
  else if Z.even f then f else (f + 1)%Z.

(** [round(x, 1)], on the exact value of [x]. *)
Definition round1 (q : Q) : Q := (inject_Z (round_half_even (q * 10)) / 10)%Q.

Definition THRESHOLDS (metric : string) : option Q :=
  if String.eqb metric "humidity" then Some 50%Q
  else if String.eqb metric "temperature" then Some 50%Q
  else if String.eqb metric "x_jerk" then Some 5%Q
  else if String.eqb metric "y_jerk" then Some 5%Q
  else if String.eqb metric "z_jerk" then Some 15%Q
  else if String.eqb metric "x_vibe" then Some 5%Q
  else if String.eqb metric "y_vibe" then Some 5%Q
  else if String.eqb metric "z_vibe" then Some 15%Q
  else None.

Definition DOOR_OPEN_THRESHOLD_SEC : Q := 15.
Definition TOLERANCE_MM : Q := 10.
Definition BUCKET_HALF_MM : Q := 50.

(** Values of the [details] dictionaries sent with an alarm.  [DZone lo hi]
    is the string [f"{lo:.1f}..{hi:.1f} mm"]. *)
Inductive dval :=
| DQ (q : Q)
| DZ (n : Z)
| DStr (s : string)
| DZone (lo hi : Q).

(** One call of [_create_alarm_on_tb(device, type, ts, severity, details)]. *)
Record alarm := {
  alarm_type : string;
  severity : string;
  details : list (string * dval)
}.

(** One entry of [alarm_events] returned by [check_alarm]. *)
Record event := {
  ev_code : string;
  ev_severity : string;
  ev_fields : list (string * dval)
}.

(** A vibration bucket [{"center": h, "count": n}]. *)
Record bucket := { center : Q; count : Z }.

(** The module-level state of [alarm_logic.py] that the rules read and write. *)
Record alarm_store := {
  device_door_state : gmap string bool;
  door_open_since : gmap string Q;
  bucket_counts : gmap string (gmap string (list bucket));
  movement_state : gmap string motion_entry
}.

Definition empty_store : alarm_store :=
  {| device_door_state := ∅; door_open_since := ∅;
     bucket_counts := ∅; movement_state := ∅ |}.

Definition set_buckets (st : alarm_store) (device metric : string) (l : list bucket)
  : alarm_store :=
  let dev := default ∅ (bucket_counts st !! device) in
  {| device_door_state := device_door_state st;
     door_open_since := door_open_since st;
     bucket_counts := <[device := <[metric := l]> dev]> (bucket_counts st);
     movement_state := movement_state st |}.

Definition get_buckets (st : alarm_store) (device metric : string) : list bucket :=
  default [] (default ∅ (bucket_counts st !! device) !! metric).

(** Python [==] on two bucket dictionaries. *)
Definition bucket_eqb (a b : bucket) : bool :=
  Qeq_bool (center a) (center b) && Z.eqb (count a) (count b).

(** [buckets.remove(b)]: removes the first element equal to [b]. *)
Fixpoint list_remove_first (b : bucket) (l : list bucket) : list bucket :=
  match l with
  | [] => []
  | x :: r => if bucket_eqb x b then r else x :: list_remove_first b r
  end.

(** The [for b in list(buckets)] loop: the first bucket within
    [BUCKET_HALF_MM] of [h], with its position. *)
Fixpoint find_match (h : Q) (i : nat) (l : list bucket) : option (nat * bucket) :=
  match l with
  | [] => None
  | b :: r =>
      if Qle_bool (Qabs (center b - h)) BUCKET_HALF_MM then Some (i, b)
      else find_match h (S i) r
  end.

(** [_bucket_check_and_trigger(device, metric, value, h, ...)].  The second
    component is the emitted alarms, or [None] when [THRESHOLDS[metric]]
    raises [KeyError] (the increment has then already happened). *)
Definition _bucket_check_and_trigger (st : alarm_store) (device metric : string)
  (value h : Q) : alarm_store * option (list alarm) :=
  let buckets := get_buckets st device metric in
  match find_match h 0 buckets with
  | Some (i, b) =>
      let b' := {| center := center b; count := (count b + 1)%Z |} in
      let buckets1 := <[i := b']> buckets in
      if (3 <=? count b')%Z then
        match THRESHOLDS metric with
        | Some thr =>
            let a := {| alarm_type := metric ++ " Alarm"; severity := "MINOR";
                        details := [("value", DQ value); ("threshold", DQ thr);
                                    ("height_zone", DZone (center b' - BUCKET_HALF_MM)
                                                          (center b' + BUCKET_HALF_MM))] |} in
            (set_buckets st device metric (list_remove_first b' buckets1), Some [a])
        | None => (set_buckets st device metric buckets1, None)
        end
      else (set_buckets st device metric buckets1, Some [])
  | None =>
      (set_buckets st device metric (buckets ++ [{| center := h; count := 1 |}])%list, Some [])
  end.

(** [_process_door_timers(device, door_open_bit, ts_ms, account, floor_label)];
    [now] is [time.time()]. *)
Definition _process_door_timers (st : alarm_store) (device : string)
  (door_open_bit : option Z) (now : Q) (floor_label : string)
  : alarm_store * list alarm :=
  let '(bit, dds) :=
    match door_open_bit with
    | None => (if default false (device_door_state st !! device) then 1%Z else 0%Z,
               device_door_state st)
    | Some b => (b, <[device := negb (Z.eqb b 0)]> (device_door_state st))
    end in
  let with_since (m : gmap string Q) :=
    {| device_door_state := dds; door_open_since := m;
       bucket_counts := bucket_counts st; movement_state := movement_state st |} in
  if Z.eqb bit 1 then
    match door_open_since st !! device with
    | None => (with_since (<[device := now]> (door_open_since st)), [])
    | Some t =>
        let duration := (now - t)%Q in
        if Qle_bool DOOR_OPEN_THRESHOLD_SEC duration then
          (with_since (delete device (door_open_since st)),
           [{| alarm_type := "Door Open Too Long"; severity := "MAJOR";
               details := [("duration_sec", DZ (py_int duration));
                           ("floor", DStr floor_label)] |}])
        else (with_since (door_open_since st), [])
    end
  else (with_since (delete device (door_open_since st)), []).

(** [_floor_mismatch(height, fi, boundaries)] *)
Definition _floor_mismatch (height : Q) (fi : nat) (bs : list Z) : bool * Q * Q :=
  match nth_error bs fi with
  | None => (true, 0%Q, 0%Q)
  | Some c =>
      let floor_center := inject_Z c in
      let deviation := (height - floor_center)%Q in
      (Qltb TOLERANCE_MM (Qabs deviation), deviation, floor_center)
  end.

(** [str.upper()] and [str.capitalize()] on ASCII strings. *)
Definition upper_char (c : ascii) : ascii :=
  let n := ascii_code c in
  if Nat.leb 97 n && Nat.leb n 122 then Ascii.ascii_of_nat (n - 32) else c.

Definition lower_char (c : ascii) : ascii :=
  let n := ascii_code c in
  if Nat.leb 65 n && Nat.leb n 90 then Ascii.ascii_of_nat (n + 32) else c.

Definition py_upper (s : string) : string :=
  string_of_list_ascii (map upper_char (list_ascii_of_string s)).

Definition py_capitalize (s : string) : string :=
  match s with
  | EmptyString => EmptyString
  | String c r => String (upper_char c) (string_of_list_ascii (map lower_char (list_ascii_of_string r)))
  end.

(** The environment loop of [check_alarm] over [env_pairs]. *)
Fixpoint env_alarms (fl : string) (pairs : list (string * option Q))
  : list event * list alarm :=
  match pairs with
  | [] => ([], [])
  | (name, v) :: r =>
      let '(evs, als) := env_alarms fl r in
      match v, THRESHOLDS name with
      | Some val, Some thr =>
          if Qltb thr val then
            ({| ev_code := py_upper name ++ "_HIGH"; ev_severity := "WARNING";
                ev_fields := [("value", DQ val)] |} :: evs,
             {| alarm_type := py_capitalize name ++ " Alarm"; severity := "WARNING";
                details := [("value", DQ val); ("threshold", DQ thr); ("floor", DStr fl)] |}
               :: als)
          else (evs, als)
      | _, _ => (evs, als)
      end
  end.

Definition env_pairs (parsed : gmap string pval) : list (string * option Q) :=
  [("temperature", get_float parsed "temperature" (get_float parsed "mpu_temp_val" None));
   ("humidity", get_float parsed "humidity" (get_float parsed "humidity_val" None))].

Definition metric_map (parsed : gmap string pval) : list (string * option Q) :=
  [("x_vibe", get_float parsed "x_vibe" (get_float parsed "accel_x_val" None));
   ("y_vibe", get_float parsed "y_vibe" (get_float parsed "accel_y_val" None));
   ("z_vibe", get_float parsed "z_vibe" (get_float parsed "accel_z_val" None));
   ("x_jerk", get_float parsed "x_jerk" (get_float parsed "gyro_x_val" None));
   ("y_jerk", get_float parsed "y_jerk" (get_float parsed "gyro_y_val" None));
   ("z_jerk", get_float parsed "z_jerk" (get_float parsed "gyro_z_val" None))].

(** The vibration/jerk loop of [check_alarm]; [None] propagates a raise. *)
Fixpoint metric_loop (st : alarm_store) (device : string) (h : Q)
  (ms : list (string * option Q)) : alarm_store * option (list alarm) :=
  match ms with
  | [] => (st, Some [])
  | (m, v) :: r =>
      match v, THRESHOLDS m with
      | Some val, Some thr =>
          if Qltb thr val then
            let '(st1, o) := _bucket_check_and_trigger st device m val h in
            match o with
            | None => (st1, None)
            | Some a1 =>
                let '(st2, o2) := metric_loop st1 device h r in
                (st2, option_map (fun a2 => a1 ++ a2)%list o2)
            end
          else metric_loop st device h r
      | _, _ => metric_loop st device h r
      end
  end.

(** The floor-mismatch block of [check_alarm]. *)
Definition floor_mismatch_block (door_bit : option Z) (h : Q) (fi : nat)
  (bs : list Z) (fl : string) : list event * list alarm :=
  match door_bit with
  | Some 1%Z =>
      let '(mismatch, deviation, center) := _floor_mismatch h fi bs in
      if mismatch then
        let pos := if Qltb 0 deviation then "above" else "below" in
        ([{| ev_code := "FLOOR_MISMATCH"; ev_severity := "CRITICAL";
             ev_fields := [("pos", DStr pos); ("dev_mm", DQ (Qabs deviation))] |}],
         [{| alarm_type := "Floor Mismatch Alarm"; severity := "CRITICAL";
             details := [("reported_index", DZ (Z.of_nat fi));
                         ("height", DZ (round_half_even h));
                         ("deviation_mm", DQ (round1 (Qabs deviation)));
                         ("position", DStr pos);
                         ("center", DQ center);
                         ("floor", DStr fl)] |}])
      else ([], [])
  | _ => ([], [])
  end.

(** [check_alarm] after [pack_raw] has been found: [meta] is the pair
    [(boundaries, labels)] returned by [_get_floor_meta], [now] is
    [time.time()].  Returns the new store and, unless a check raised, the
    [alarm_events] of the response and the alarms created, in call order. *)
Definition check_alarm (st : alarm_store) (device pack_raw : string)
  (meta : list Z * list string) (now : Q)
  : alarm_store * option (list event * list alarm) :=
  let parsed := parse_pack_raw pack_raw in
  let '(bs, labels) := meta in
  let h := _compute_height parsed bs in
  let fi := _floor_index h bs in
  let fl := match nth_error labels fi with Some l => l | None => string_of_nat fi end in
  let '(ms', (dirc_status, _)) := _derive_motion (movement_state st) device h
                                    (py_int (now * 1000)) in
  let '(dirc, status) := dirc_status in
  let st1 := {| device_door_state := device_door_state st;
                door_open_since := door_open_since st;
                bucket_counts := bucket_counts st; movement_state := ms' |} in
  let door_bit := door_to_bit (parsed !! "door_val") in
  let '(ev_env, al_env) := env_alarms fl (env_pairs parsed) in
  let '(st2, o) := metric_loop st1 device h (metric_map parsed) in
  match o with
  | None => (st2, None)
  | Some al_vib =>
      let '(ev_mov, al_mov) :=
        if String.eqb status "M" && bool_decide (door_bit = Some 1%Z) then
          ([{| ev_code := "DOOR_OPEN_WHILE_MOVING"; ev_severity := "CRITICAL";
               ev_fields := [("fi", DZ (Z.of_nat fi))] |}],
           [{| alarm_type := "Door Open While Moving"; severity := "CRITICAL";
               details := [("fi", DZ (Z.of_nat fi)); ("floor", DStr fl);
                           ("direction", DStr dirc); ("h", DZ (round_half_even h))] |}])
        else ([], []) in
      let '(st3, al_door) := _process_door_timers st2 device door_bit now fl in
      let '(ev_fm, al_fm) := floor_mismatch_block door_bit h fi bs fl in
      (st3, Some (ev_env ++ ev_mov ++ ev_fm, al_env ++ al_vib ++ al_mov ++ al_door ++ al_fm)%list)
  end.

(* ------------------------------------------------------------------ *)
(** ** Live counters aggregator ([lift-simulator/live_counters.py]) *)

(** The per-device entry of [_state_inmem]: the string dictionary
    [{"ts", "floor", "h", "door"}] read back through [int]/[float]
    ([st_h = None] is ["nan"]; [str]/[float] round-trip on the others). *)
Record lc_state := {
  st_ts : Z;
  st_floor : string;
  st_h : option Q;
  st_door : string
}.

(** The two module-level dictionaries [_inmem] (counters, keyed by
    ["lc:<date>:<device>:door"] and ["lc:<date>:<device>:idle_ms"]) and
    [_state_inmem] (last sample state per device). *)
Record lc_world := {
  inmem : gmap string (gmap string Z);
  state_inmem : gmap string lc_state
}.

Definition _door_key (date_str device_id : string) : string :=
  "lc:" ++ date_str ++ ":" ++ device_id ++ ":door".

Definition _idle_key (date_str device_id : string) : string :=
  "lc:" ++ date_str ++ ":" ++ device_id ++ ":idle_ms".

(** [_hinc(store_key, field, delta)] *)
Definition _hinc (m : gmap string (gmap string Z)) (store_key field : string) (delta : Z)
  : gmap string (gmap string Z) :=
  let h := default ∅ (m !! store_key) in
  <[store_key := <[field := (default 0 (h !! field) + delta)%Z]> h]> m.

(** [_movement(prev_h, h, thr)]; [None] is NaN. *)
Definition _movement (prev_h h : option Q) (thr : Q) : bool :=
  match prev_h, h with
  | Some p, Some x => Qltb thr (Qabs (x - p))
  | _, _ => false
  end.

(** Python [x or y] on an optional string ([None] and [""] are falsy). *)
Definition str_or (x : option string) (y : string) : string :=
  match x with
  | Some s => if String.eqb s "" then y else s
  | None => y
  end.

Section LiveCounters.
  (** Configuration read from the environment at import time, the date
      bucketing of [_local_date_str] (which depends on [LC_TZ]) and the
      tolerant JSON-or-k=v parser [_parse_pack_out], returning the floor
      label, the height ([None] for NaN) and the door state. *)
  Variable LC_ENABLED : bool.
  Variable LC_MOVEMENT_THRESHOLD_MM : Q.
  Variable _local_date_str : Z -> string.
  Variable _parse_pack_out : string -> option string * option Q * option bool.

  (** [process_pack_out_sample(device_id, device_name, ts_ms, pack_out_str)] *)
Definition process_pack_out_sample (w : lc_world) (device_id : string) (ts_ms : Z)
    (pack_out_str : string) : lc_world :=
    if negb LC_ENABLED then w
    else
      let '(fl, h, dopen) := _parse_pack_out pack_out_str in
      match fl, h, dopen with
      | None, None, None => w
      | _, _, _ =>
          let state := state_inmem w !! device_id in
          let last_ts := match state with Some s => st_ts s | None => 0%Z end in
          let last_floor := option_map st_floor state in
          let last_h := match state with Some s => st_h s | None => None end in
          let last_door := option_map st_door state in
          let last_door_bool :=
            match last_door with
            | None => None
            | Some d => if String.eqb d "" then None else Some (String.eqb d "1")
            end in
          if (ts_ms <=? last_ts)%Z then w
          else
            let date_str := _local_date_str ts_ms in
            let floor_for_bucket := str_or fl (str_or last_floor "UNKNOWN") in
            let m1 :=
              if bool_decide (last_door_bool = Some false) && bool_decide (dopen = Some true)
              then _hinc (inmem w) (_door_key date_str device_id) floor_for_bucket 1
              else inmem w in
            let m2 :=
              if negb (_movement last_h h LC_MOVEMENT_THRESHOLD_MM) then
                let dt := (ts_ms - last_ts)%Z in
                if (0 <? dt)%Z && (0 <? last_ts)%Z
                then _hinc m1 (_idle_key date_str device_id) floor_for_bucket dt
                else m1
              else m1 in
            let door' :=
              match dopen with
              | Some true => "1"
              | Some false => "0"
              | None => match last_door with Some d => d | None => "" end
              end in
            {| inmem := m2;
               state_inmem := <[device_id := {| st_ts := ts_ms; st_floor := floor_for_bucket;
                                               st_h := h; st_door := door' |}]>
                                (state_inmem w) |}
      end.
End LiveCounters.

(* ------------------------------------------------------------------ *)
(** ** Further code of the services *)

(** ** [str] of a Python [int] *)

Definition digit_char (d : Z) : ascii := Ascii.ascii_of_nat (48 + Z.to_nat d).

(** Decimal digits of a non-negative integer, most significant first. *)
Fixpoint digits_go (fuel : nat) (n : Z) : list ascii :=
  match fuel with
  | O => []
  | S f =>
      if (n <? 10)%Z then [digit_char n]
      else (digits_go f (n / 10) ++ [digit_char (n mod 10)])%list
  end.

(** [str(n)] *)
Definition py_str_Z (n : Z) : string :=
  let a := Z.abs n in
  string_of_list_ascii
    ((if (n <? 0)%Z then ["-"%char] else []) ++ digits_go (S (Z.to_nat (Z.log2 a))) a)%list.

(** [ts_seconds(parsed, default)] *)
Definition ts_seconds (parsed : gmap string pval) (default : option Z) : option Z :=
  match parsed !! "ts" with
  | Some (PInt n) => Some n
  | Some (PStr s) => match _to_int s with Some iv => Some iv | None => default end
  | _ => default
  end.

(** [ts_millis(parsed, default)] *)
Definition ts_millis (parsed : gmap string pval) (default : option Z) : option Z :=
  match ts_seconds parsed None with
  | None => default
  | Some sec => Some (sec * 1000)%Z
  end.


Definition digits_value (acc : Z) (l : list ascii) : Z :=
  fold_left (fun a c => a * 10 + default 0 (digit_val c))%Z l acc.

Definition all_digits (l : list ascii) : Prop :=
  Forall (fun c => exists d, digit_val c = Some d) l.

Definition sign_or_digit (c : ascii) : Prop := c = "-"%char \/ exists d, digit_val c = Some d.

(** [f"{k}={v}"] *)
Definition kv_seg (kvp : string * string) : string := kvp.1 ++ "=" ++ kvp.2.

(** The [add(..)] calls of [_build_pack_calc], in order. *)
Definition pack_calc_pairs (ts_sec : Z) (h : Q) (fi : nat) (fl dirc status : string)
  (door_bit : option Z) : list (string * string) :=
  [("v", py_str_Z 1); ("ts", py_str_Z ts_sec); ("h", py_str_Z (round_half_even h));
   ("fi", py_str_Z (Z.of_nat fi)); ("fl", fl); ("dir", dirc); ("st", status);
   ("door", match door_bit with None => "" | Some b => py_str_Z b end)].

(** [_build_pack_calc(ts_sec, h, fi, fl, dirc, status, door_bit)] *)
Definition _build_pack_calc (ts_sec : Z) (h : Q) (fi : nat) (fl dirc status : string)
  (door_bit : option Z) : string :=
  String.concat "|" (map kv_seg (pack_calc_pairs ts_sec h fi fl dirc status door_bit)).

Definition _RAW_EXPORT_MAP : list (string * option string) :=
  [("laser_val", None); ("height_raw", None);
   ("x_vibe", Some "accel_x_val"); ("y_vibe", Some "accel_y_val"); ("z_vibe", Some "accel_z_val");
   ("x_jerk", Some "gyro_x_val"); ("y_jerk", Some "gyro_y_val"); ("z_jerk", Some "gyro_z_val");
   ("temperature", Some "mpu_temp_val"); ("humidity", Some "humidity_val");
   ("mic", Some "mic_val"); ("door_val", None)].

Section PackOut.
  (** [str(f)] of a Python float (its shortest round-trip representation). *)
  Variable py_str_float : Q -> string.

  (** [str(val)] of a parsed value; [None] is Python's [None]. *)
Definition py_str_pval (v : pval) : option string :=
    match v with
    | PNone => None
    | PInt n => Some (py_str_Z n)
    | PFloat q => Some (py_str_float q)
    | PStr s => Some s
    end.

  (** One entry of the [_RAW_EXPORT_MAP] loop of [_build_pack_out]. *)
Definition raw_export_pair (parsed_raw : gmap string pval) (e : string * option string)
    : option (string * string) :=
    let get k := match parsed_raw !! k with Some v => py_str_pval v | None => None end in
    let '(key, fallback) := e in
    let val :=
      match get key, fallback with
      | None, Some fb => if String.eqb fb "" then None else get fb
      | v, _ => v
      end in
    option_map (fun s => (key, s)) val.

  (** [_build_pack_out(pack_calc, parsed_raw, height_mm, floor_label, door_bit)] *)
Definition _build_pack_out (pack_calc : string) (parsed_raw : gmap string pval)
    (height_mm : Q) (floor_label : string) (door_bit : option Z) : string :=
    String.concat "|"
      (pack_calc ::
       map kv_seg
         ([("floor_label", floor_label); ("height", py_str_Z (round_half_even height_mm))]
          ++ match door_bit with Some b => [("door_open", py_str_Z b)] | None => [] end
          ++ omap (raw_export_pair parsed_raw) _RAW_EXPORT_MAP)%list).
End PackOut.

(** [str.lower()] on ASCII strings. *)
Definition py_lower (s : string) : string :=
  string_of_list_ascii (map lower_char (list_ascii_of_string s)).

(** The [parts] dictionary of the [k=v|k=v] fallback of [_parse_pack_out]. *)
Definition kv_step (m : gmap string string) (p : string) : gmap string string :=
  match split_first "=" p with
  | Some (k, vv) => <[k := vv]> m
  | None => m
  end.

Definition kv_parts (v : string) : gmap string string :=
  fold_left kv_step (split_on "|" v) ∅.

(** Python [a or b] on two optional strings. *)
Definition py_or_str (a b : option string) : option string :=
  match a with
  | Some s => if String.eqb s "" then b else a
  | None => b
  end.

(** The [k=v|k=v] fallback of [_parse_pack_out]: floor label, height ([None]
    is NaN) and door state. *)
Definition _parse_pack_out_kv (v : string) : option string * option Q * option bool :=
  let parts := kv_parts v in
  let floor_label := py_or_str (parts !! "floor_label") (parts !! "fl") in
  let h_raw := match parts !! "height" with Some x => Some x | None => parts !! "h" end in
  let height_mm := match h_raw with Some x => _to_float x | None => None end in
  let door_open :=
    match parts !! "door_open" with
    | Some s =>
        match _to_int s with
        | Some n => Some (negb (Z.eqb n 0))
        | None => Some (mem_key (py_lower (strip s)) ["true"; "open"; "1"])
        end
    | None =>
        match parts !! "door" with
        | Some s => match _to_int s with Some n => Some (negb (Z.eqb n 0)) | None => None end
        | None =>
            match parts !! "door_val" with
            | Some s => Some (String.eqb (py_upper (strip s)) "OPEN")
            | None => None
            end
        end
    end in
  (floor_label, height_mm, door_open).

(** JSON insignificant whitespace skipped by [json.loads] before a value. *)
Fixpoint drop_json_ws (l : list ascii) : list ascii :=
  match l with
  | c :: r =>
      if Ascii.eqb c " " || Ascii.eqb c "009" || Ascii.eqb c "010" || Ascii.eqb c "013"
      then drop_json_ws r else l
  | [] => []
  end.

(** [json.loads(v)] can only return a dictionary when the first significant
    character of [v] opens an object. *)
Definition json_may_be_object (v : string) : bool :=
  match drop_json_ws (list_ascii_of_string v) with
  | c :: _ => Ascii.eqb c "{"
  | [] => false
  end.

Section ParsePackOut.
  (** The JSON branch of [_parse_pack_out]: [json.loads(v)] followed by the
      field extraction, or [None] when [json.loads] raises or does not return
      a dictionary (the function then falls through to the [k=v] parser). *)
  Variable json_fields : string -> option (option string * option Q * option bool).

  (** [_parse_pack_out(v)] *)
Definition _parse_pack_out (v : string) : option string * option Q * option bool :=
    if String.eqb v "" then (None, None, None)
    else match json_fields v with
         | Some r => r
         | None => _parse_pack_out_kv v
         end.
End ParsePackOut.

Definition no_char (c : ascii) (s : string) : Prop := ~ In c (list_ascii_of_string s).

Definition pack_key_ok (k : string) : Prop :=
  k <> "" /\ strip k = k /\ no_char "=" k /\ no_char "|" k.

(** ** Accounts ([alarm_logic.py], [calculated_telemetry.py]) *)

Section Accounts.
  (** [json.loads(raw)] when it returns a dictionary, as its items with keys
      and values passed through [str]; [None] when it raises or returns
      anything else. *)
  Variable json_object : string -> option (list (string * string)).

  (** [_load_tb_accounts()]: [tb_accounts] and [tb_base_url] are the values of
      the environment variables [TB_ACCOUNTS] (default [""]) and [TB_BASE_URL]
      (default ["https://thingsboard.cloud"]).  [ACCOUNTS] is kept as its list
      of items in insertion order. *)
Definition _load_tb_accounts (tb_accounts tb_base_url : string) : list (string * string) :=
    let raw := strip tb_accounts in
    let fallback := [("default", strip tb_base_url)] in
    if String.eqb raw "" then fallback
    else match json_object raw with
         | Some ((_ :: _) as data) => data
         | _ => fallback
         end.
End Accounts.

(** [_resolve_account(x_account_id)] of [alarm_logic.py]; [None] is the
    [StopIteration] of [next(iter(ACCOUNTS.keys()))] on an empty dictionary. *)
Definition _resolve_account (accounts : list (string * string)) (x_account_id : option string)
  : option string :=
  let ids := map fst accounts in
  match x_account_id with
  | Some x =>
      if String.eqb x "" then head ids
      else if mem_key x ids then Some x
      else if mem_key (py_lower x) ids then Some (py_lower x)
      else head ids
  | None => head ids
  end.

Module CalculatedTelemetry.
(** [_resolve_account( *candidates)] of [calculated_telemetry.py]. *)
Fixpoint _resolve_account (accounts : list (string * string)) (candidates : list (option string))
  : option string :=
  let ids := map fst accounts in
  match candidates with
  | [] => head ids
  | x :: rest =>
      match x with
      | None => _resolve_account accounts rest
      | Some x0 =>
          if String.eqb x0 "" then _resolve_account accounts rest
          else
            let k := strip x0 in
            if String.eqb k "" then _resolve_account accounts rest
            else if mem_key k ids then Some k
            else if mem_key (py_lower k) ids then Some (py_lower k)
            else _resolve_account accounts rest
      end
  end.
End CalculatedTelemetry.

(** ** Request model [AlarmIn] *)

(** A JSON value of the [payload] dictionary, as far as its truth value goes. *)
Inductive pyany :=
| PyNone
| PyStr (s : string)
| PyOther (truthy : bool).

Definition truthy (v : pyany) : bool :=
  match v with
  | PyNone => false
  | PyStr s => negb (String.eqb s "")
  | PyOther b => b
  end.

(** Python [a or b] *)
Definition py_or (a b : pyany) : pyany := if truthy a then a else b.

Definition opt_str (o : option string) : pyany :=
  match o with Some s => PyStr s | None => PyNone end.

Record alarm_in := {
  ai_pack_raw : option string;
  ai_pack_out : option string;
  ai_raw : option string;
  ai_pack : option string;
  ai_payload : option (gmap string pyany)
}.

(** [payload.get(k)] *)
Definition payload_get (p : gmap string pyany) (k : string) : pyany :=
  match p !! k with Some v => v | None => PyNone end.

(** The validator [AlarmIn.unify_pack]: the value of [pack_raw] afterwards. *)
Definition unify_pack (a : alarm_in) : pyany :=
  if truthy (opt_str (ai_pack_raw a)) then opt_str (ai_pack_raw a)
  else if truthy (opt_str (ai_pack_out a)) then opt_str (ai_pack_out a)
  else if truthy (opt_str (ai_raw a)) then opt_str (ai_raw a)
  else if truthy (opt_str (ai_pack a)) then opt_str (ai_pack a)
  else match ai_payload a with
       | Some p =>
           py_or (payload_get p "pack_raw")
             (py_or (payload_get p "pack_out")
                (py_or (payload_get p "raw") (payload_get p "pack")))
       | None => opt_str (ai_pack_raw a)
       end.

(** ** Caches of [_get_device_id] and [_get_floor_meta] *)

Definition floor_meta : Type := list Z * list string * option Z.

Definition FLOOR_CACHE_TTL_SEC : Q := 300.

(** [_device_id_cache] and [_floor_meta_cache] (the stored dictionary as its
    [(boundaries, labels, home_floor)] and its ["ts"]). *)
Record meta_caches := {
  device_id_cache : gmap string string;
  floor_meta_cache : gmap string (floor_meta * Q)
}.

(** [_get_device_id(device_name, account_id)]: [lookup] is the answer of the
    device lookup request, [Some id] when it is [ok] and carries
    [["id"]["id"]], [None] otherwise; it is only consulted on a cache miss. *)
Definition _get_device_id (cache : gmap string string) (device_name account_id : string)
  (lookup : option string) : gmap string string * option string :=
  let cache_key := account_id ++ ":" ++ device_name in
  match cache !! cache_key with
  | Some id => (cache, Some id)
  | None =>
      match lookup with
      | Some id => (<[cache_key := id]> cache, Some id)
      | None => (cache, None)
      end
  end.

(** [_get_floor_meta(device_name, account_id)] with its cache: [now] is
    [time.time()], [lookup] the device lookup answer and [fetch d] the
    attributes of device [d] ([None] when the request or the parsing raised);
    neither is consulted on a fresh cache hit. *)
Definition _get_floor_meta_cached (c : meta_caches) (device_name account_id : string) (now : Q)
  (lookup : option string) (fetch : string -> option (gmap string attrval))
  : meta_caches * floor_meta :=
  let key := account_id ++ ":" ++ device_name in
  let miss :=
    let '(dc, dev_id) := _get_device_id (device_id_cache c) device_name account_id lookup in
    let fetched := match dev_id with
                   | Some d => if String.eqb d "" then None else fetch d
                   | None => None
                   end in
    let m := _get_floor_meta fetched in
    ({| device_id_cache := dc; floor_meta_cache := <[key := (m, now)]> (floor_meta_cache c) |}, m) in
  match floor_meta_cache c !! key with
  | Some (m, ts) => if Qltb (now - ts) FLOOR_CACHE_TTL_SEC then (c, m) else miss
  | None => miss
  end.

(** The door timers keep [_door_open_since] within the devices whose last
    known door state is open. *)
Definition door_inv (st : alarm_store) : Prop :=
  forall d t, door_open_since st !! d = Some t -> device_door_state st !! d = Some true.

(** States that agree everywhere except on the buckets of [device]. *)
Definition buckets_frame (device : string) (st st' : alarm_store) : Prop :=
  device_door_state st' = device_door_state st /\
  door_open_since st' = door_open_since st /\
  movement_state st' = movement_state st /\
  forall d, d <> device -> bucket_counts st' !! d = bucket_counts st !! d.

Definition env_event (code : string) (v : Q) : event :=
  {| ev_code := code; ev_severity := "WARNING"; ev_fields := [("value", DQ v)] |}.

(** The counter [int(_inmem.get(store_key, {}).get(field, 0))]. *)
Definition lc_count (m : gmap string (gmap string Z)) (store_key field : string) : Z :=
  default 0%Z (default ∅ (m !! store_key) !! field).

(** [s.startswith(p)] *)
Definition py_startswith (s p : string) : bool := String.prefix p s.

(** [s.endswith(suf)]: [suf] is a prefix of the reversed [s]. *)
Definition py_endswith (s suf : string) : bool :=
  String.prefix (string_of_list_ascii (rev (list_ascii_of_string suf)))
                (string_of_list_ascii (rev (list_ascii_of_string s))).

(** [_hgetall(store_key)] ([int] is the identity on the stored ints). *)
Definition _hgetall (m : gmap string (gmap string Z)) (store_key : string) : gmap string Z :=
  default ∅ (m !! store_key).

(** The body of the candidate loop of [flush_day_to_tb] for one key. *)
Definition flush_candidate (date_str key : string) : option string :=
  if py_startswith key ("lc:" ++ date_str ++ ":")
     && (py_endswith key ":door" || py_endswith key ":idle_ms") then
    match split_on ":" key with
    | _ :: _ :: p2 :: _ :: _ => Some p2
    | _ => None
    end
  else None.

Definition flush_candidates (m : gmap string (gmap string Z)) (date_str : string) : gset string :=
  list_to_set (omap (flush_candidate date_str) (map fst (map_to_list m))).

Section Flush.
  (** The ThingsBoard save of one device's payload, built from its door
      counts and idle milliseconds: [true] when the status is below 400. *)
  Variable post_ok : string -> gmap string Z -> gmap string Z -> bool.

  (** The [for device_id in candidates] loop: returns [_inmem] and [flushed]. *)
Fixpoint flush_loop (date_str : string) (devs : list string)
    (m : gmap string (gmap string Z)) (flushed : Z) : gmap string (gmap string Z) * Z :=
    match devs with
    | [] => (m, flushed)
    | device_id :: r =>
        if post_ok device_id (_hgetall m (_door_key date_str device_id))
                             (_hgetall m (_idle_key date_str device_id)) then
          flush_loop date_str r
            (delete (_idle_key date_str device_id) (delete (_door_key date_str device_id) m))
            (flushed + 1)
        else flush_loop date_str r m flushed
    end.

  (** [flush_day_to_tb(date_str)]: the new [_inmem] and the returned count;
      the set is iterated in the order of [elements]. *)
Definition flush_day_to_tb (m : gmap string (gmap string Z)) (date_str : string)
    : gmap string (gmap string Z) * Z :=
    let candidates := flush_candidates m date_str in
    if decide (candidates = ∅) then (m, 0%Z)
    else flush_loop date_str (elements candidates) m 0.
End Flush.

(** Sample inputs of the instances below. *)

Definition unify_pack_sample : alarm_in :=
  {| ai_pack_raw := None; ai_pack_out := Some "h=1"; ai_raw := None; ai_pack := None;
     ai_payload := None |}.

Definition empty_caches : meta_caches := {| device_id_cache := ∅; floor_meta_cache := ∅ |}.

Definition counter_world : lc_world :=
  {| inmem := ∅;
     state_inmem := {["dev1" := {| st_ts := 100; st_floor := "2"; st_h := Some 1000%Q;
                                   st_door := "0" |}]} |}.

Definition flush_sample : gmap string (gmap string Z) :=
  {[_door_key "2026-01-01" "dev1" := {["2" := 1%Z]}]}.

(* ================================================================== *)
(** * Properties *)

(** ** Pack codec *)

Lemma split_first_None_iff (c : ascii) (s : string) :
  split_first c s = None <-> ~ In c (list_ascii_of_string s).
Proof.
  induction s as [|x r IH]; simpl.
  - tauto.
  - destruct (Ascii.eqb x c) eqn:E.
    + apply Ascii.eqb_eq in E; subst. split; [discriminate|]. intros H; exfalso; auto.
    + apply Ascii.eqb_neq in E.
      destruct (split_first c r) as [[a b]|]; split; intros H.
      * discriminate.
      * exfalso. assert (Hn : Some (a, b) = None) by (apply IH; intros Hin; apply H; right; exact Hin). discriminate.
      * intros [->|Hin]; [congruence|]. apply IH in H. contradiction.
      * reflexivity.
Qed.

Lemma segment_entry_None_iff (pair : string) :
  segment_entry pair = None <->
  ~ In "="%char (list_ascii_of_string pair) \/
  (exists k0 v0, split_first "=" pair = Some (k0, v0) /\ strip k0 = "").
Proof.
  unfold segment_entry.
  destruct (String.eqb pair "") eqn:Ep.
  - apply String.eqb_eq in Ep; subst. simpl. tauto.
  - destruct (split_first "=" pair) as [[k0 v0]|] eqn:Es.
    + destruct (String.eqb (strip k0) "") eqn:Ek.
      * apply String.eqb_eq in Ek. split; [intros _|tauto]. right. eauto.
      * apply String.eqb_neq in Ek. split; [discriminate|].
        intros [Hn|(k1 & v1 & Hs & Hk)].
        -- apply split_first_None_iff in Hn. congruence.
        -- injection Hs as -> ->. contradiction.
    + apply split_first_None_iff in Es. tauto.
Qed.

Section PackFold.
  Variable to_int : string -> option Z.
  Variable to_float : string -> option Q.
  Variables ik fk : list string.

Let step_seg (out : gmap string pval) (pair : string) : gmap string pval :=
    match segment_entry pair with
    | Some (k, v) => <[k := coerce_value to_int to_float k v ik fk]> out
    | None => out
    end.

Let step_entry (out : gmap string pval) (e : string * string) : gmap string pval :=
    <[e.1 := coerce_value to_int to_float e.1 e.2 ik fk]> out.

Lemma fold_segments_entries (segs : list string) (m : gmap string pval) :
    fold_left step_seg segs m = fold_left step_entry (omap segment_entry segs) m.
  Proof.
    revert m. induction segs as [|p segs IH]; intros m; simpl; [reflexivity|].
    unfold step_seg at 2. destruct (segment_entry p) as [[k v]|]; simpl; apply IH.
  Qed.

Lemma fold_entries_other (l : list (string * string)) (m : gmap string pval) (k : string) :
    k ∉ map fst l -> fold_left step_entry l m !! k = m !! k.
  Proof.
    revert m. induction l as [|[k' v'] l IH]; intros m Hk; simpl; [reflexivity|].
    rewrite IH.
    - unfold step_entry; simpl. rewrite lookup_insert_ne; [reflexivity|].
      intros ->. apply Hk. simpl. left.
    - intros Hin. apply Hk. simpl. right. exact Hin.
  Qed.

Lemma fold_entries_last (l1 l2 : list (string * string)) (m : gmap string pval) k v :
    k ∉ map fst l2 ->
    fold_left step_entry (l1 ++ (k, v) :: l2) m !! k
    = Some (coerce_value to_int to_float k v ik fk).
  Proof.
    intros Hk. rewrite fold_left_app. simpl.
    rewrite fold_entries_other by exact Hk.
    unfold step_entry; simpl. apply lookup_insert_eq.
  Qed.
End PackFold.

Lemma parse_pack_raw_with_entries to_int to_float xi xf (s : string) :
  parse_pack_raw_with to_int to_float xi xf s
  = fold_left (fun (out : gmap string pval) (e : string * string) =>
                 <[e.1 := coerce_value to_int to_float e.1 e.2
                             (DEFAULT_INT_KEYS ++ xi)%list (DEFAULT_FLOAT_KEYS ++ xf)%list]> out)
              (omap segment_entry (split_on "|" s)) ∅.
Proof.
  unfold parse_pack_raw_with.
  destruct (String.eqb s "") eqn:Es.
  - apply String.eqb_eq in Es; subst. reflexivity.
  - apply fold_segments_entries.
Qed.

(** C8 *)
(** Claim C8: pack parsing is a total function to a mapping (no exception
    path exists: the conversions are guarded); a segment is dropped exactly
    when it has no ['='] or its stripped key is empty; an empty value becomes
    [None]; and the value stored under a key is the coerced value of the
    LAST kept segment with that key (absent keys are absent). *)
Theorem parse_pack_raw_tolerant_last_wins :
  (forall pair : string,
     segment_entry pair = None <->
     ~ In "="%char (list_ascii_of_string pair) \/
     (exists k0 v0, split_first "=" pair = Some (k0, v0) /\ strip k0 = "")) /\
  (forall (k : string) (ik fk : list string),
     coerce_value _to_int _to_float k "" ik fk = PNone) /\
  (forall (s k : string),
     k ∉ map fst (omap segment_entry (split_on "|" s)) ->
     parse_pack_raw s !! k = None) /\
  (forall (s k v : string) (l1 l2 : list (string * string)),
     omap segment_entry (split_on "|" s) = (l1 ++ (k, v) :: l2)%list ->
     k ∉ map fst l2 ->
     parse_pack_raw s !! k
     = Some (coerce_value _to_int _to_float k v DEFAULT_INT_KEYS DEFAULT_FLOAT_KEYS)).
Proof.
  split; [exact segment_entry_None_iff|].
  split; [intros; reflexivity|].
  split.
  - intros s k Hk. unfold parse_pack_raw. rewrite parse_pack_raw_with_entries.
    rewrite fold_entries_other by exact Hk. apply lookup_empty.
  - intros s k v l1 l2 Hl Hk. unfold parse_pack_raw. rewrite parse_pack_raw_with_entries.
    rewrite Hl. rewrite fold_entries_last by exact Hk.
    rewrite !app_nil_r. reflexivity.
Qed.

(** ** Floor model *)

From Stdlib Require Import Sorting.Sorted.

Lemma Qle_bool_inject_true (b : Z) (h : Q) :
  Qle_bool (inject_Z b) h = true <-> (inject_Z b <= h)%Q.
Proof. apply Qle_bool_iff. Qed.

Lemma Qltb_true (a b : Q) : Qltb a b = true <-> (a < b)%Q.
Proof.
  unfold Qltb. rewrite negb_true_iff. split.
  - intros H. apply Qnot_le_lt. intros Hle. apply Qle_bool_iff in Hle. congruence.
  - intros H. destruct (Qle_bool b a) eqn:E; [|reflexivity].
    apply Qle_bool_iff in E. exfalso. apply (Qlt_not_le a b); assumption.
Qed.

Lemma floor_index_loop_bounds (h : Q) (bs : list Z) (i j : nat) :
  floor_index_loop h i bs = Some j -> (i <= j /\ j + 2 <= i + List.length bs)%nat.
Proof.
  revert i. induction bs as [|b0 bs IH]; intros i Hl; simpl in Hl; [discriminate|].
  destruct bs as [|b1 rest]; [discriminate|].
  destruct (Qle_bool (inject_Z b0) h && Qltb h (inject_Z b1)).
  - injection Hl as <-. simpl. lia.
  - apply IH in Hl. simpl in *. lia.
Qed.

Lemma floor_index_range (bs : list Z) (h : Q) :
  (2 <= List.length bs)%nat -> (_floor_index h bs <= List.length bs - 2)%nat.
Proof.
  intros Hlen. unfold _floor_index.
  destruct (Nat.ltb (List.length bs) 2) eqn:E; [lia|].
  destruct (floor_index_loop h 0 bs) as [j|] eqn:Hl; [|lia].
  apply floor_index_loop_bounds in Hl. lia.
Qed.

(** The value [_floor_index] computes from the loop started at index [i]. *)
Definition floor_pos (h : Q) (i : nat) (bs : list Z) : nat :=
  match floor_index_loop h i bs with
  | Some j => j
  | None => i + List.length bs - 2
  end.

Lemma floor_pos_ge (h : Q) (i : nat) (bs : list Z) :
  (2 <= List.length bs)%nat -> (i <= floor_pos h i bs)%nat.
Proof.
  intros Hlen. unfold floor_pos.
  destruct (floor_index_loop h i bs) as [j|] eqn:Hl; [|lia].
  apply floor_index_loop_bounds in Hl. lia.
Qed.

Lemma floor_index_loop_cons2 (h : Q) (i : nat) (b0 b1 : Z) (rest : list Z) :
  floor_index_loop h i (b0 :: b1 :: rest)
  = if Qle_bool (inject_Z b0) h && Qltb h (inject_Z b1) then Some i
    else floor_index_loop h (S i) (b1 :: rest).
Proof. reflexivity. Qed.

Lemma floor_pos_mono (rest : list Z) (b0 : Z) (i : nat) (h1 h2 : Q) :
  Sorted Z.le (b0 :: rest) -> (inject_Z b0 <= h1)%Q -> (h1 <= h2)%Q ->
  (floor_pos h1 i (b0 :: rest) <= floor_pos h2 i (b0 :: rest))%nat.
Proof.
  revert b0 i. induction rest as [|b1 rest IH]; intros b0 i Hs H0 H12.
  - unfold floor_pos. simpl. lia.
  - apply Sorted_inv in Hs as [Hs Hhd]. apply HdRel_inv in Hhd.
    assert (H02 : (inject_Z b0 <= h2)%Q) by (eapply Qle_trans; eassumption).
    unfold floor_pos at 1. rewrite floor_index_loop_cons2.
    destruct (Qltb h1 (inject_Z b1)) eqn:E1.
    + rewrite (proj2 (Qle_bool_inject_true b0 h1) H0). simpl.
      apply floor_pos_ge. simpl. lia.
    + rewrite andb_false_r.
      assert (Hb1 : (inject_Z b1 <= h1)%Q).
      { apply Qnot_lt_le. intros Hlt. apply Qltb_true in Hlt. congruence. }
      assert (E2 : Qltb h2 (inject_Z b1) = false).
      { destruct (Qltb h2 (inject_Z b1)) eqn:E2; [|reflexivity].
        apply Qltb_true in E2. exfalso. apply (Qlt_not_le h2 (inject_Z b1)); [exact E2|].
        eapply Qle_trans; eassumption. }
      unfold floor_pos. rewrite floor_index_loop_cons2, E2, andb_false_r.
      specialize (IH b1 (S i) Hs Hb1 H12). unfold floor_pos in IH.
      simpl List.length in *.
      destruct (floor_index_loop h1 (S i) (b1 :: rest)),
               (floor_index_loop h2 (S i) (b1 :: rest)); lia.
Qed.

Lemma floor_index_mono_sorted (bs : list Z) (b0 : Z) (h1 h2 : Q) :
  Sorted Z.le bs -> head bs = Some b0 -> (inject_Z b0 <= h1)%Q -> (h1 <= h2)%Q ->
  (_floor_index h1 bs <= _floor_index h2 bs)%nat.
Proof.
  intros Hs Hhd H0 H12. destruct bs as [|b rest]; [discriminate|].
  simpl in Hhd. injection Hhd as ->.
  unfold _floor_index.
  destruct (Nat.ltb (List.length (b0 :: rest)) 2) eqn:E; [lia|].
  pose proof (floor_pos_mono rest b0 0 h1 h2 Hs H0 H12) as Hm.
  unfold floor_pos in Hm. simpl in Hm |- *.
  destruct (floor_index_loop h1 0 (b0 :: rest)), (floor_index_loop h2 0 (b0 :: rest)); lia.
Qed.

(** C3 *)
(** Claim C3 (counterexample): [_floor_index] is not monotone for every
    boundaries list: on the unsorted list [[10,20,0,30]], height 5 gives
    index 2 and height 15 gives index 0; on the default ladder, height -1
    (below every boundary) gives index 5 while height 0 gives index 0. *)
Lemma floor_index_not_monotone :
  (5 <= 15)%Q /\ (_floor_index 15 [10; 20; 0; 30]%Z < _floor_index 5 [10; 20; 0; 30]%Z)%nat /\
  (-1 <= 0)%Q /\ (_floor_index 0 DEFAULT_BOUNDARIES < _floor_index (-1) DEFAULT_BOUNDARIES)%nat.
Proof.
  repeat split; first [apply Nat.ltb_lt; vm_compute; reflexivity | unfold Qle; simpl; lia].
Qed.

(** C3 *)
(** Claim C3 (amended): for every boundaries list of length at least 2,
    [_floor_index] lies in [[0, len(boundaries)-2]]; for a boundaries list
    sorted ascending, [_floor_index] is non-decreasing in the height over
    heights at or above the first boundary. *)
Theorem floor_index_range_monotone :
  (forall (bs : list Z) (h : Q),
     (2 <= List.length bs)%nat -> (_floor_index h bs <= List.length bs - 2)%nat) /\
  (forall (bs : list Z) (b0 : Z) (h1 h2 : Q),
     Sorted Z.le bs -> head bs = Some b0 -> (inject_Z b0 <= h1)%Q -> (h1 <= h2)%Q ->
     (_floor_index h1 bs <= _floor_index h2 bs)%nat).
Proof.
  split; [exact floor_index_range | exact floor_index_mono_sorted].
Qed.

Lemma floor_index_range_monotone_witness :
  (Sorted Z.le [0; 3000; 6000; 9000]%Z /\ (inject_Z 0 <= 2500)%Q /\ (2500 <= 4025)%Q) /\
  (_floor_index 2500 [0; 3000; 6000; 9000]%Z <= _floor_index 4025 [0; 3000; 6000; 9000]%Z)%nat /\
  (_floor_index 4025 [0; 3000; 6000; 9000]%Z <= 4 - 2)%nat.
Proof.
  assert (Hs : Sorted Z.le [0; 3000; 6000; 9000]%Z).
  { repeat constructor; lia. }
  assert (H0 : (inject_Z 0 <= 2500)%Q) by (unfold Qle; simpl; lia).
  assert (H1 : (2500 <= 4025)%Q) by (unfold Qle; simpl; lia).
  split; [split; [exact Hs | split; assumption]|].
  split.
  - apply (proj2 floor_index_range_monotone [0; 3000; 6000; 9000]%Z 0%Z);
      [exact Hs | reflexivity | exact H0 | exact H1].
  - apply (proj1 floor_index_range_monotone [0; 3000; 6000; 9000]%Z 4025%Q). simpl. lia.
Defined.

(** C4 *)
(** Claim C4 (counterexample): a configuration whose [floor_boundaries]
    attribute is ["5000"] supplies one boundary, and [_get_floor_meta]
    keeps it: the resolved boundaries are [[5000]], not the default ladder. *)
Lemma floor_meta_single_boundary_kept :
  (_get_floor_meta (Some (<["floor_boundaries" := AStr "5000"]> ∅))).1.1 = [5000%Z] /\
  [5000%Z] <> DEFAULT_BOUNDARIES.
Proof. split; [reflexivity | discriminate]. Qed.

(** C4 *)
(** Claim C4 (amended): [_get_floor_meta] falls back to the 7-point ladder
    [[0,3000,...,18000]] exactly when the fetched configuration yields no
    boundary at all (no device id, failed fetch, absent or unparsable
    attribute, or no valid entry); any non-empty list of boundaries, in
    particular a single boundary, is kept as it is, and with a single
    boundary the labels are empty and [_floor_index] is always 0. *)
Theorem floor_meta_fallback_only_when_empty :
  forall fetched : option (gmap string attrval),
    let bs0 := (floor_meta_attrs fetched).1.1 in
    (bs0 = [] -> (_get_floor_meta fetched).1.1 = DEFAULT_BOUNDARIES) /\
    (bs0 <> [] -> (_get_floor_meta fetched).1.1 = bs0) /\
    (List.length bs0 = 1%nat ->
       (_get_floor_meta fetched).1.2 = [] /\
       forall h : Q, _floor_index h (_get_floor_meta fetched).1.1 = 0%nat).
Proof.
  intros fetched bs0. unfold _get_floor_meta. subst bs0.
  destruct (floor_meta_attrs fetched) as [[bs0 ls0] hf]. simpl.
  split; [intros ->; reflexivity|].
  split.
  - intros Hne. destruct bs0; [congruence | reflexivity].
  - intros Hlen. destruct bs0 as [|b [|b' r]]; simpl in Hlen; try lia.
    simpl. split.
    + destruct ls0; reflexivity.
    + intros h. reflexivity.
Qed.

Lemma floor_meta_fallback_only_when_empty_witness :
  List.length (floor_meta_attrs (Some (<["floor_boundaries" := AStr "5000"]> ∅))).1.1 = 1%nat /\
  (_get_floor_meta (Some (<["floor_boundaries" := AStr "5000"]> ∅))).1.2 = [] /\
  (floor_meta_attrs None).1.1 = [] /\
  (_get_floor_meta None).1.1 = DEFAULT_BOUNDARIES.
Proof.
  pose proof (floor_meta_fallback_only_when_empty (Some (<["floor_boundaries" := AStr "5000"]> ∅)))
    as [_ [_ H1]].
  pose proof (floor_meta_fallback_only_when_empty None) as [H0 _].
  split; [reflexivity|].
  split; [apply H1; reflexivity|].
  split; [reflexivity|].
  apply H0. reflexivity.
Defined.

(** ** Motion tracker *)

(** C7 *)
(** Claim C7: on the first observation of a device (no stored previous
    height) [_derive_motion] returns [("S","I",0)] whatever the height and
    stores the height as baseline; afterwards, with [vel = h - prev_h], it
    returns [("U","M",vel)] when [vel > 20], [("D","M",vel)] when
    [vel < -20] and [("S","I",vel)] otherwise; in every case the stored
    height becomes [h] and no other device's entry changes. *)
Theorem derive_motion_spec :
  forall (ms : gmap string motion_entry) (device : string) (h : Q) (now_ms : Z),
    let r := _derive_motion ms device h now_ms in
    (r.1 !! device = Some {| prev_h := Some h; last_ts := Some now_ms |} /\
     forall d, d <> device -> r.1 !! d = ms !! d) /\
    (prev_h (default empty_motion (ms !! device)) = None -> r.2 = ("S", "I", 0%Q)) /\
    (forall p : Q, prev_h (default empty_motion (ms !! device)) = Some p ->
       ((20 < h - p)%Q -> r.2 = ("U", "M", (h - p)%Q)) /\
       ((h - p < -20)%Q -> r.2 = ("D", "M", (h - p)%Q)) /\
       ((-20 <= h - p)%Q -> (h - p <= 20)%Q -> r.2 = ("S", "I", (h - p)%Q))).
Proof.
  intros ms device h now_ms r. subst r. unfold _derive_motion.
  destruct (prev_h (default empty_motion (ms !! device))) as [p|] eqn:Hp.
  - split.
    + destruct (Qltb MOVEMENT_DEADBAND_MM (h - p)); [|destruct (Qltb (h - p) (- MOVEMENT_DEADBAND_MM))];
        simpl; split; [apply lookup_insert_eq | intros d Hd; apply lookup_insert_ne; congruence
                      | apply lookup_insert_eq | intros d Hd; apply lookup_insert_ne; congruence
                      | apply lookup_insert_eq | intros d Hd; apply lookup_insert_ne; congruence].
    + split; [discriminate|]. intros p' Hp'. injection Hp' as <-.
      unfold MOVEMENT_DEADBAND_MM. split; [|split].
      * intros Hlt. apply Qltb_true in Hlt. rewrite Hlt. reflexivity.
      * intros Hlt. destruct (Qltb 20 (h - p)) eqn:E1.
        { apply Qltb_true in E1. exfalso. lra. }
        assert (E2 : Qltb (h - p) (Qopp 20) = true) by (apply Qltb_true; exact Hlt).
        rewrite E2. reflexivity.
      * intros Hlo Hhi. destruct (Qltb 20 (h - p)) eqn:E1.
        { apply Qltb_true in E1. exfalso. lra. }
        destruct (Qltb (h - p) (Qopp 20)) eqn:E2.
        { apply Qltb_true in E2. exfalso. lra. }
        reflexivity.
  - simpl. split.
    + split; [apply lookup_insert_eq | intros d Hd; apply lookup_insert_ne; congruence].
    + split; [reflexivity | discriminate].
Qed.

Lemma derive_motion_spec_witness :
  let ms := <["lift1" := {| prev_h := Some 1000%Q; last_ts := Some 5%Z |}]>
              (∅ : gmap string motion_entry) in
  prev_h (default empty_motion (ms !! "lift1")) = Some 1000%Q /\
  (20 < 1100 - 1000)%Q /\
  (_derive_motion ms "lift1" 1100 7).2 = ("U", "M", (1100 - 1000)%Q).
Proof.
  intros ms.
  assert (Hp : prev_h (default empty_motion (ms !! "lift1")) = Some 1000%Q) by reflexivity.
  assert (Hv : (20 < 1100 - 1000)%Q) by (unfold Qlt; simpl; lia).
  split; [exact Hp|]. split; [exact Hv|].
  destruct (derive_motion_spec ms "lift1" 1100 7) as [_ [_ H]].
  apply (proj1 (H 1000%Q Hp)). exact Hv.
Defined.

(** ** End-to-end floor mismatch through [check_alarm] *)

Definition meta_0_9000 : list Z * list string :=
  let m := _get_floor_meta (Some (<["floor_boundaries" := AStr "0,3000,6000,9000"]> ∅)) in
  (m.1.1, m.1.2).

Lemma meta_0_9000_eq : meta_0_9000 = ([0; 3000; 6000; 9000]%Z, ["0"; "1"; "2"]).
Proof. reflexivity. Qed.

Lemma process_door_timers_types st device bit now fl a :
  In a (_process_door_timers st device bit now fl).2 -> alarm_type a = "Door Open Too Long".
Proof.
  unfold _process_door_timers.
  destruct (match bit with
            | Some b => (b, <[device:=negb (Z.eqb b 0)]> (device_door_state st))
            | None => (if default false (device_door_state st !! device) then 1%Z else 0%Z,
                       device_door_state st)
            end) as [b dds].
  destruct (Z.eqb b 1); [|simpl; tauto].
  destruct (door_open_since st !! device); [|simpl; tauto].
  destruct (Qle_bool DOOR_OPEN_THRESHOLD_SEC (now - q)); simpl; [|tauto].
  intros [<-|[]]. reflexivity.
Qed.

Lemma metric_loop_no_values (st : alarm_store) (device : string) (h : Q)
  (ms : list (string * option Q)) :
  Forall (fun mv => mv.2 = None) ms -> metric_loop st device h ms = (st, Some []).
Proof.
  intros Hall. induction Hall as [|[m v] r Hx Hr IH]; [reflexivity|].
  simpl in Hx. subst v. simpl. exact IH.
Qed.

Lemma check_alarm_door_open_pack (st : alarm_store) (device : string) (now : Q) :
  exists st' evs als,
    check_alarm st device "h=4025|door_val=OPEN" meta_0_9000 now = (st', Some (evs, als)) /\
    exists d c, (d == 1025)%Q /\ (c == 3000)%Q /\
      In {| alarm_type := "Floor Mismatch Alarm"; severity := "CRITICAL";
            details := [("reported_index", DZ 1); ("height", DZ 4025);
                        ("deviation_mm", DQ d); ("position", DStr "above");
                        ("center", DQ c); ("floor", DStr "1")] |} als.
Proof.
  rewrite meta_0_9000_eq. unfold check_alarm. cbv zeta iota beta.
  assert (Hh : _compute_height (parse_pack_raw "h=4025|door_val=OPEN") [0; 3000; 6000; 9000]%Z
               = 4025%Q) by reflexivity.
  rewrite Hh.
  assert (Hfi : _floor_index 4025 [0; 3000; 6000; 9000]%Z = 1%nat) by reflexivity.
  rewrite Hfi.
  destruct (_derive_motion (movement_state st) device 4025 (py_int (now * 1000)))
    as [ms' [[dirc status] vel]].
  rewrite metric_loop_no_values by (repeat constructor).
  assert (Hd : door_to_bit (parse_pack_raw "h=4025|door_val=OPEN" !! "door_val") = Some 1%Z)
    by reflexivity.
  rewrite Hd. cbn [nth_error].
  assert (He : env_alarms "1" (env_pairs (parse_pack_raw "h=4025|door_val=OPEN")) = ([], []))
    by reflexivity.
  rewrite He.
  destruct (if (status =? "M") && bool_decide (Some 1%Z = Some 1%Z) then _ else ([], []))
    as [ev_mov al_mov].
  destruct (_process_door_timers _ device (Some 1%Z) now "1") as [st3 al_door].
  set (fm := floor_mismatch_block (Some 1%Z) 4025 1 [0; 3000; 6000; 9000]%Z "1").
  assert (Hfm : fm = ([{| ev_code := "FLOOR_MISMATCH"; ev_severity := "CRITICAL";
                          ev_fields := [("pos", DStr "above"); ("dev_mm", DQ (Qabs (4025 - inject_Z 3000)))] |}],
                      [{| alarm_type := "Floor Mismatch Alarm"; severity := "CRITICAL";
                          details := [("reported_index", DZ 1); ("height", DZ 4025);
                                      ("deviation_mm", DQ (round1 (Qabs (4025 - inject_Z 3000))));
                                      ("position", DStr "above"); ("center", DQ (inject_Z 3000));
                                      ("floor", DStr "1")] |}])) by reflexivity.
  rewrite Hfm. cbv beta iota.
  eexists _, _, _. split; [reflexivity|].
  exists (round1 (Qabs (4025 - inject_Z 3000))), (inject_Z 3000).
  split; [reflexivity|]. split; [reflexivity|].
  rewrite !in_app_iff. right. right. right. right. left. reflexivity.
Qed.

Lemma check_alarm_door_key_pack (st : alarm_store) (device : string) (now : Q) :
  exists st' als,
    check_alarm st device "h=4025|door=OPEN" meta_0_9000 now = (st', Some ([], als)) /\
    forall a, In a als -> alarm_type a = "Door Open Too Long".
Proof.
  rewrite meta_0_9000_eq. unfold check_alarm. cbv zeta iota beta.
  assert (Hh : _compute_height (parse_pack_raw "h=4025|door=OPEN") [0; 3000; 6000; 9000]%Z
               = 4025%Q) by reflexivity.
  rewrite Hh.
  assert (Hfi : _floor_index 4025 [0; 3000; 6000; 9000]%Z = 1%nat) by reflexivity.
  rewrite Hfi.
  destruct (_derive_motion (movement_state st) device 4025 (py_int (now * 1000)))
    as [ms' [[dirc status] vel]].
  rewrite metric_loop_no_values by (repeat constructor).
  assert (Hd : door_to_bit (parse_pack_raw "h=4025|door=OPEN" !! "door_val") = None)
    by reflexivity.
  rewrite Hd. cbn [nth_error].
  assert (He : env_alarms "1" (env_pairs (parse_pack_raw "h=4025|door=OPEN")) = ([], []))
    by reflexivity.
  rewrite He.
  case_bool_decide as Hb; [discriminate|]. rewrite andb_false_r.
  pose proof (process_door_timers_types
                {| device_door_state := device_door_state st;
                   door_open_since := door_open_since st;
                   bucket_counts := bucket_counts st; movement_state := ms' |}
                device None now "1") as Hty.
  destruct (_process_door_timers _ device None now "1") as [st3 al_door].
  simpl in Hty. cbv beta iota. simpl.
  exists st3, (al_door ++ [])%list. split; [reflexivity|].
  intros a Ha. rewrite app_nil_r in Ha. apply Hty. exact Ha.
Qed.

(** C2 *)
(** Claim C2 (counterexample): on a fresh store, [check_alarm] on the pack
    ["h=4025|door=OPEN"] for boundaries [[0,3000,6000,9000]] returns no
    event and creates no alarm: the door bit is read from [door_val] only. *)
Lemma check_alarm_door_key_no_mismatch :
  (check_alarm empty_store "lift1" "h=4025|door=OPEN" meta_0_9000 100).2 = Some ([], []).
Proof. reflexivity. Qed.

(** C2 *)
(** Claim C2 (amended): for a device whose floor boundaries are
    [[0,3000,6000,9000]] (labels defaulted), in every state, [check_alarm]
    on ["h=4025|door_val=OPEN"] creates a floor-mismatch alarm with
    [reported_index = 1], [deviation_mm = 1025], [position = "above"] and
    [center = 3000]; on ["h=4025|door=OPEN"] it reports no event and creates
    no floor-mismatch alarm (only a door-timer alarm can be created). *)
Theorem check_alarm_floor_mismatch_end_to_end :
  forall (st : alarm_store) (device : string) (now : Q),
    (exists st' evs als,
       check_alarm st device "h=4025|door_val=OPEN" meta_0_9000 now = (st', Some (evs, als)) /\
       exists d c, (d == 1025)%Q /\ (c == 3000)%Q /\
         In {| alarm_type := "Floor Mismatch Alarm"; severity := "CRITICAL";
               details := [("reported_index", DZ 1); ("height", DZ 4025);
                           ("deviation_mm", DQ d); ("position", DStr "above");
                           ("center", DQ c); ("floor", DStr "1")] |} als) /\
    (exists st' als,
       check_alarm st device "h=4025|door=OPEN" meta_0_9000 now = (st', Some ([], als)) /\
       forall a, In a als -> alarm_type a <> "Floor Mismatch Alarm").
Proof.
  intros st device now. split; [apply check_alarm_door_open_pack|].
  destruct (check_alarm_door_key_pack st device now) as (st' & als & Heq & Hty).
  exists st', als. split; [exact Heq|].
  intros a Ha. rewrite (Hty a Ha). discriminate.
Qed.

(** ** Vibration buckets *)

Lemma get_set_buckets (st : alarm_store) (device metric : string) (l : list bucket) :
  get_buckets (set_buckets st device metric l) device metric = l.
Proof.
  unfold get_buckets, set_buckets. simpl.
  rewrite lookup_insert_eq. simpl. rewrite lookup_insert_eq. reflexivity.
Qed.

Lemma bucket_eqb_refl (b : bucket) : bucket_eqb b b = true.
Proof.
  unfold bucket_eqb. rewrite Z.eqb_refl, andb_true_r. apply Qeq_bool_iff. reflexivity.
Qed.

Lemma bucket_check_empty st device metric v h :
  get_buckets st device metric = [] ->
  _bucket_check_and_trigger st device metric v h
  = (set_buckets st device metric [{| center := h; count := 1 |}], Some []).
Proof. intros He. unfold _bucket_check_and_trigger. rewrite He. reflexivity. Qed.

Lemma bucket_check_hit_one st device metric v h c :
  get_buckets st device metric = [{| center := c; count := 1 |}] ->
  (Qabs (c - h) <= BUCKET_HALF_MM)%Q ->
  _bucket_check_and_trigger st device metric v h
  = (set_buckets st device metric [{| center := c; count := 2 |}], Some []).
Proof.
  intros Hb Hd. unfold _bucket_check_and_trigger. rewrite Hb. cbn [find_match center].
  rewrite (proj2 (Qle_bool_iff _ _) Hd). reflexivity.
Qed.

Lemma bucket_check_hit_two st device metric v h c thr :
  get_buckets st device metric = [{| center := c; count := 2 |}] ->
  (Qabs (c - h) <= BUCKET_HALF_MM)%Q ->
  THRESHOLDS metric = Some thr ->
  _bucket_check_and_trigger st device metric v h
  = (set_buckets st device metric [],
     Some [{| alarm_type := metric ++ " Alarm"; severity := "MINOR";
              details := [("value", DQ v); ("threshold", DQ thr);
                          ("height_zone", DZone (c - BUCKET_HALF_MM) (c + BUCKET_HALF_MM))] |}]).
Proof.
  intros Hb Hd Ht. unfold _bucket_check_and_trigger. rewrite Hb. cbn [find_match center].
  rewrite (proj2 (Qle_bool_iff _ _) Hd). cbn -[THRESHOLDS bucket_eqb set_buckets].
  rewrite Ht. cbn -[bucket_eqb set_buckets]. rewrite bucket_eqb_refl. reflexivity.
Qed.

(** C5 *)
(** Claim C5: for a device and a tracked metric (one with a threshold) whose
    bucket list is empty, three successive samples whose heights are within
    50 mm of the first one (the center of the bucket it creates) emit no
    alarm on the first two calls and exactly one alarm on the third, after
    which the bucket list is empty again; a fourth such sample creates a
    fresh bucket with count 1 and emits no alarm. *)
Theorem bucket_three_hits_one_alarm :
  forall (st : alarm_store) (device metric : string) (thr h1 h2 h3 h4 v1 v2 v3 v4 : Q),
    THRESHOLDS metric = Some thr ->
    get_buckets st device metric = [] ->
    (Qabs (h1 - h2) <= 50)%Q -> (Qabs (h1 - h3) <= 50)%Q -> (Qabs (h1 - h4) <= 50)%Q ->
    let '(st1, o1) := _bucket_check_and_trigger st device metric v1 h1 in
    let '(st2, o2) := _bucket_check_and_trigger st1 device metric v2 h2 in
    let '(st3, o3) := _bucket_check_and_trigger st2 device metric v3 h3 in
    let '(st4, o4) := _bucket_check_and_trigger st3 device metric v4 h4 in
    o1 = Some [] /\ get_buckets st1 device metric = [{| center := h1; count := 1 |}] /\
    o2 = Some [] /\ get_buckets st2 device metric = [{| center := h1; count := 2 |}] /\
    o3 = Some [{| alarm_type := metric ++ " Alarm"; severity := "MINOR";
                  details := [("value", DQ v3); ("threshold", DQ thr);
                              ("height_zone", DZone (h1 - 50) (h1 + 50))] |}] /\
    get_buckets st3 device metric = [] /\
    o4 = Some [] /\ get_buckets st4 device metric = [{| center := h4; count := 1 |}].
Proof.
  intros st device metric thr h1 h2 h3 h4 v1 v2 v3 v4 Ht He H2 H3 H4.
  rewrite (bucket_check_empty st device metric v1 h1 He). cbv beta iota.
  rewrite (bucket_check_hit_one _ device metric v2 h2 h1 (get_set_buckets _ _ _ _) H2).
  cbv beta iota.
  rewrite (bucket_check_hit_two _ device metric v3 h3 h1 thr (get_set_buckets _ _ _ _) H3 Ht).
  cbv beta iota.
  rewrite (bucket_check_empty _ device metric v4 h4 (get_set_buckets _ _ _ _)).
  cbv beta iota.
  rewrite !get_set_buckets. repeat split.
Qed.

Lemma bucket_three_hits_one_alarm_witness :
  THRESHOLDS "x_vibe" = Some 5%Q /\
  get_buckets empty_store "lift1" "x_vibe" = [] /\
  (Qabs (1000 - 1030) <= 50)%Q /\ (Qabs (1000 - 980) <= 50)%Q /\ (Qabs (1000 - 1010) <= 50)%Q /\
  (let '(st1, o1) := _bucket_check_and_trigger empty_store "lift1" "x_vibe" 6 1000 in
   let '(st2, o2) := _bucket_check_and_trigger st1 "lift1" "x_vibe" 7 1030 in
   let '(st3, o3) := _bucket_check_and_trigger st2 "lift1" "x_vibe" 8 980 in
   let '(st4, o4) := _bucket_check_and_trigger st3 "lift1" "x_vibe" 9 1010 in
   o3 <> Some [] /\ o4 = Some []).
Proof.
  assert (Ht : THRESHOLDS "x_vibe" = Some 5%Q) by reflexivity.
  assert (He : get_buckets empty_store "lift1" "x_vibe" = []) by reflexivity.
  assert (H2 : (Qabs (1000 - 1030) <= 50)%Q) by (vm_compute; discriminate).
  assert (H3 : (Qabs (1000 - 980) <= 50)%Q) by (vm_compute; discriminate).
  assert (H4 : (Qabs (1000 - 1010) <= 50)%Q) by (vm_compute; discriminate).
  do 5 (split; [assumption|]).
  pose proof (bucket_three_hits_one_alarm empty_store "lift1" "x_vibe" 5 1000 1030 980 1010
                6 7 8 9 Ht He H2 H3 H4) as H.
  destruct (_bucket_check_and_trigger empty_store "lift1" "x_vibe" 6 1000) as [st1 o1].
  destruct (_bucket_check_and_trigger st1 "lift1" "x_vibe" 7 1030) as [st2 o2].
  destruct (_bucket_check_and_trigger st2 "lift1" "x_vibe" 8 980) as [st3 o3].
  destruct (_bucket_check_and_trigger st3 "lift1" "x_vibe" 9 1010) as [st4 o4].
  destruct H as (_ & _ & _ & _ & Ho3 & _ & Ho4 & _).
  split; [rewrite Ho3; discriminate | exact Ho4].
Defined.

Definition bucket_ok (b : bucket) : Prop := (count b = 1 \/ count b = 2)%Z.

(** Every stored bucket has a hit count of 1 or 2. *)
Definition buckets_ok (st : alarm_store) : Prop :=
  map_Forall (fun _ (dm : gmap string (list bucket)) =>
                map_Forall (fun _ (l : list bucket) => Forall bucket_ok l) dm)
             (bucket_counts st).

Lemma get_buckets_ok st device metric :
  buckets_ok st -> Forall bucket_ok (get_buckets st device metric).
Proof.
  intros Hok. unfold get_buckets.
  destruct (bucket_counts st !! device) as [dm|] eqn:Hd; simpl; [|constructor].
  destruct (dm !! metric) as [l|] eqn:Hm; simpl; [|constructor].
  exact (map_Forall_lookup_1 _ _ _ _ (map_Forall_lookup_1 _ _ _ _ Hok Hd) Hm).
Qed.

Lemma set_buckets_ok st device metric l :
  buckets_ok st -> Forall bucket_ok l -> buckets_ok (set_buckets st device metric l).
Proof.
  intros Hok Hl. unfold buckets_ok, set_buckets. simpl.
  apply map_Forall_insert_2; [|exact Hok].
  apply map_Forall_insert_2; [exact Hl|].
  destruct (bucket_counts st !! device) as [dm|] eqn:Hd; simpl.
  - exact (map_Forall_lookup_1 _ _ _ _ Hok Hd).
  - apply map_Forall_empty.
Qed.

Lemma find_match_lookup (h : Q) (k : nat) (l : list bucket) (i : nat) (b : bucket) :
  find_match h k l = Some (i, b) -> (k <= i)%nat /\ l !! (i - k)%nat = Some b.
Proof.
  revert k. induction l as [|x r IH]; intros k Hf; cbn [find_match] in Hf; [discriminate|].
  destruct (Qle_bool (Qabs (center x - h)) BUCKET_HALF_MM).
  - injection Hf as <- <-. rewrite Nat.sub_diag. split; [lia | reflexivity].
  - apply IH in Hf as [Hk Hl]. split; [lia|].
    replace (i - k)%nat with (S (i - S k)) by lia. exact Hl.
Qed.

Lemma remove_first_skip_ok (b : bucket) (l1 l2 : list bucket) :
  count b = 3%Z -> Forall bucket_ok l1 ->
  list_remove_first b (l1 ++ b :: l2) = (l1 ++ l2)%list.
Proof.
  intros H3 Hl1. induction Hl1 as [|x l1 Hx Hl1 IH]; simpl.
  - rewrite bucket_eqb_refl. reflexivity.
  - assert (Hne : bucket_eqb x b = false).
    { unfold bucket_eqb. apply andb_false_intro2. apply Z.eqb_neq.
      unfold bucket_ok in Hx. lia. }
    rewrite Hne, IH. reflexivity.
Qed.

Lemma bucket_check_preserves_ok st device metric v h :
  is_Some (THRESHOLDS metric) -> buckets_ok st ->
  buckets_ok (_bucket_check_and_trigger st device metric v h).1.
Proof.
  intros [thr Ht] Hok. pose proof (get_buckets_ok st device metric Hok) as Hl.
  unfold _bucket_check_and_trigger.
  destruct (find_match h 0 (get_buckets st device metric)) as [[i b]|] eqn:Hf.
  - apply find_match_lookup in Hf as [_ Hi]. rewrite Nat.sub_0_r in Hi.
    assert (Hb : bucket_ok b) by (eapply Forall_lookup_1; eassumption).
    assert (Hlen : (i < List.length (get_buckets st device metric))%nat)
      by (eapply lookup_lt_Some; exact Hi).
    rewrite (insert_take_drop _ _ _ Hlen). cbn [count center].
    destruct (3 <=? count b + 1)%Z eqn:E3.
    + rewrite Ht. simpl. apply set_buckets_ok; [exact Hok|].
      apply Z.leb_le in E3.
      rewrite remove_first_skip_ok.
      * apply Forall_app. split; [apply Forall_take | apply Forall_drop]; exact Hl.
      * simpl. unfold bucket_ok in Hb. lia.
      * apply Forall_take. exact Hl.
    + simpl. apply set_buckets_ok; [exact Hok|].
      apply Z.leb_gt in E3.
      apply Forall_app. split; [apply Forall_take; exact Hl|].
      constructor; [|apply Forall_drop; exact Hl].
      unfold bucket_ok in *. simpl. lia.
  - simpl. apply set_buckets_ok; [exact Hok|].
    apply Forall_app. split; [exact Hl|]. constructor; [|constructor].
    unfold bucket_ok. simpl. lia.
Qed.

(** A run of bucket checks [(device, metric, value, height)] from a store. *)
Fixpoint run_bucket_checks (st : alarm_store) (calls : list (string * string * Q * Q))
  : alarm_store :=
  match calls with
  | [] => st
  | (device, metric, v, h) :: r =>
      run_bucket_checks (_bucket_check_and_trigger st device metric v h).1 r
  end.

(** C9 *)
(** Claim C9: starting from the empty state, after any sequence of calls to
    [_bucket_check_and_trigger] for metrics that have a threshold (the only
    ones [check_alarm] passes), every bucket left in the stored lists has a
    hit count of exactly 1 or 2. *)
Theorem buckets_counts_one_or_two :
  forall calls : list (string * string * Q * Q),
    Forall (fun c => is_Some (THRESHOLDS c.1.1.2)) calls ->
    buckets_ok (run_bucket_checks empty_store calls).
Proof.
  intros calls Hall.
  assert (H0 : buckets_ok empty_store) by apply map_Forall_empty.
  revert H0. generalize empty_store.
  induction Hall as [|[[[d m] v] h] r Hm Hr IH]; intros st Hst; simpl; [exact Hst|].
  apply IH. apply bucket_check_preserves_ok; [exact Hm | exact Hst].
Qed.

Lemma buckets_counts_one_or_two_witness :
  Forall (fun c : string * string * Q * Q => is_Some (THRESHOLDS c.1.1.2))
    [("lift1", "x_vibe", 6, 1000); ("lift1", "x_vibe", 7, 1020); ("lift1", "x_vibe", 8, 990)]%Q /\
  buckets_ok (run_bucket_checks empty_store
    [("lift1", "x_vibe", 6, 1000); ("lift1", "x_vibe", 7, 1020); ("lift1", "x_vibe", 8, 990)]%Q).
Proof.
  assert (Hall : Forall (fun c : string * string * Q * Q => is_Some (THRESHOLDS c.1.1.2))
    [("lift1", "x_vibe", 6, 1000); ("lift1", "x_vibe", 7, 1020); ("lift1", "x_vibe", 8, 990)]%Q).
  { repeat constructor; eexists; reflexivity. }
  split; [exact Hall|]. apply buckets_counts_one_or_two. exact Hall.
Defined.

(** ** Door-open-too-long timer *)

(** The door bit [_process_door_timers] acts on: the sample's bit, or the
    last known state when the sample has none. *)
Definition effective_door_bit (st : alarm_store) (device : string) (bit : option Z) : Z :=
  match bit with
  | Some b => b
  | None => if default false (device_door_state st !! device) then 1%Z else 0%Z
  end.

(** A run of samples [(door_bit, now)] of one device through the timer,
    collecting the alarms created. *)
Fixpoint run_door_timers (st : alarm_store) (device fl : string)
  (samples : list (option Z * Q)) : alarm_store * list alarm :=
  match samples with
  | [] => (st, [])
  | (bit, now) :: r =>
      let '(st1, a1) := _process_door_timers st device bit now fl in
      let '(st2, a2) := run_door_timers st1 device fl r in
      (st2, (a1 ++ a2)%list)
  end.

(** C1 *)
(** Claim C1 (counterexample): a door reported open at t = 0, 15, 16 and
    31 s, never closed in between, triggers "Door Open Too Long" twice (at
    15 s and at 31 s): the alarm re-arms while the door stays open. *)
Lemma door_open_alarm_repeats_while_open :
  map alarm_type
    (run_door_timers empty_store "lift1" "1"
       [(Some 1%Z, 0%Q); (Some 1%Z, 15%Q); (Some 1%Z, 16%Q); (Some 1%Z, 31%Q)]).2
  = ["Door Open Too Long"; "Door Open Too Long"].
Proof. reflexivity. Qed.

(** C1 *)
(** Claim C1 (amended): for an open door (explicit or remembered bit 1), a
    sample with no recorded [open_since] records [now] and emits nothing; a
    sample at least 15 s after [open_since] emits exactly one "Door Open Too
    Long" alarm and clears [open_since]; an earlier sample emits nothing and
    keeps it; a closed sample clears it and emits nothing.  Hence the alarm
    fires at most once per recording of [open_since], and while the door
    stays open the next sample re-records it, so the alarm repeats every
    re-armed 15 s rather than once per open interval. *)
Theorem door_timer_rearms :
  forall (st : alarm_store) (device : string) (bit : option Z) (now : Q) (fl : string),
    let r := _process_door_timers st device bit now fl in
    (effective_door_bit st device bit = 1%Z ->
       (door_open_since st !! device = None ->
          r.2 = [] /\ door_open_since r.1 !! device = Some now) /\
       (forall t : Q, door_open_since st !! device = Some t -> (15 <= now - t)%Q ->
          r.2 = [{| alarm_type := "Door Open Too Long"; severity := "MAJOR";
                    details := [("duration_sec", DZ (py_int (now - t)));
                                ("floor", DStr fl)] |}] /\
          door_open_since r.1 !! device = None) /\
       (forall t : Q, door_open_since st !! device = Some t -> (now - t < 15)%Q ->
          r.2 = [] /\ door_open_since r.1 !! device = Some t)) /\
    (effective_door_bit st device bit <> 1%Z ->
       r.2 = [] /\ door_open_since r.1 !! device = None).
Proof.
  intros st device bit now fl r. subst r. unfold _process_door_timers, effective_door_bit.
  destruct (match bit with
            | Some b => (b, <[device:=negb (Z.eqb b 0)]> (device_door_state st))
            | None => (if default false (device_door_state st !! device) then 1%Z else 0%Z,
                       device_door_state st)
            end) as [b dds] eqn:Hb.
  assert (Hbe : b = match bit with
                    | Some b => b
                    | None => if default false (device_door_state st !! device) then 1%Z else 0%Z
                    end) by (destruct bit; injection Hb as <- _; reflexivity).
  rewrite <- Hbe. clear Hb Hbe.
  split.
  - intros ->. rewrite Z.eqb_refl. split; [|split].
    + intros Hn. rewrite Hn. simpl. split; [reflexivity | apply lookup_insert_eq].
    + intros t Ht Hle. rewrite Ht.
      rewrite (proj2 (Qle_bool_iff DOOR_OPEN_THRESHOLD_SEC (now - t)) Hle). simpl.
      split; [reflexivity | apply lookup_delete_eq].
    + intros t Ht Hlt. rewrite Ht.
      destruct (Qle_bool DOOR_OPEN_THRESHOLD_SEC (now - t)) eqn:E.
      * apply Qle_bool_iff in E. unfold DOOR_OPEN_THRESHOLD_SEC in E. exfalso. lra.
      * simpl. split; [reflexivity | exact Ht].
  - intros Hne. apply Z.eqb_neq in Hne. rewrite Hne. simpl.
    split; [reflexivity | apply lookup_delete_eq].
Qed.

Lemma door_timer_rearms_witness :
  let st := (_process_door_timers empty_store "lift1" (Some 1%Z) 0 "1").1 in
  effective_door_bit st "lift1" None = 1%Z /\
  door_open_since st !! "lift1" = Some 0%Q /\ (15 <= 20 - 0)%Q /\
  (_process_door_timers st "lift1" None 20 "1").2
  = [{| alarm_type := "Door Open Too Long"; severity := "MAJOR";
        details := [("duration_sec", DZ (py_int (20 - 0))); ("floor", DStr "1")] |}].
Proof.
  intros st.
  assert (He : effective_door_bit st "lift1" None = 1%Z) by reflexivity.
  assert (Hs : door_open_since st !! "lift1" = Some 0%Q) by reflexivity.
  assert (Hq : (15 <= 20 - 0)%Q) by (vm_compute; discriminate).
  split; [exact He|]. split; [exact Hs|]. split; [exact Hq|].
  destruct (door_timer_rearms st "lift1" None 20 "1") as [H _].
  destruct (H He) as [_ [H2 _]].
  exact (proj1 (H2 0%Q Hs Hq)).
Defined.

(** ** Live counters *)

Section LiveCounterProofs.
  Variable LC_ENABLED : bool.
  Variable LC_MOVEMENT_THRESHOLD_MM : Q.
  Variable _local_date_str : Z -> string.
  Variable _parse_pack_out : string -> option string * option Q * option bool.

Let process := process_pack_out_sample LC_ENABLED LC_MOVEMENT_THRESHOLD_MM
                   _local_date_str _parse_pack_out.

  (** The timestamp [process_pack_out_sample] compares against. *)
Definition last_seen_ts (w : lc_world) (device_id : string) : Z :=
    match state_inmem w !! device_id with Some s => st_ts s | None => 0%Z end.

Lemma process_guard_noop (w : lc_world) (device_id : string) (ts_ms : Z) (p : string) :
    (ts_ms <= last_seen_ts w device_id)%Z -> process w device_id ts_ms p = w.
  Proof.
    unfold last_seen_ts. intros Hle. subst process. unfold process_pack_out_sample.
    destruct LC_ENABLED; [|reflexivity]. simpl.
    destruct (_parse_pack_out p) as [[fl h] dopen].
    destruct (state_inmem w !! device_id) as [s0|];
      [assert (Hb : (ts_ms <=? st_ts s0)%Z = true) by (apply Z.leb_le; exact Hle)
      |assert (Hb : (ts_ms <=? 0)%Z = true) by (apply Z.leb_le; exact Hle)];
      destruct fl, h, dopen; cbv zeta; rewrite ?Hb; reflexivity.
  Qed.

Lemma process_noop_or_records (w : lc_world) (device_id : string) (ts_ms : Z) (p : string) :
    process w device_id ts_ms p = w \/
    last_seen_ts (process w device_id ts_ms p) device_id = ts_ms.
  Proof.
    unfold last_seen_ts. subst process. unfold process_pack_out_sample.
    destruct LC_ENABLED; [|left; reflexivity]. simpl.
    destruct (_parse_pack_out p) as [[fl h] dopen].
    destruct (state_inmem w !! device_id) as [s0|] eqn:Hs;
      [destruct (ts_ms <=? st_ts s0)%Z eqn:Et | destruct (ts_ms <=? 0)%Z eqn:Et];
      destruct fl, h, dopen; cbv zeta; rewrite ?Et; try (left; reflexivity);
      right; simpl; rewrite lookup_insert_eq; reflexivity.
  Qed.

  (** C6 *)
  (** Claim C6: a sample whose timestamp is at most the device's last seen
      timestamp leaves counters and per-device state unchanged; hence
      repeating a call is idempotent, and once a call has been processed any
      later call for that device with the same or a smaller timestamp is a
      no-op. *)
Theorem process_sample_stale_ts_noop :
    (forall (w : lc_world) (device_id : string) (ts_ms : Z) (p : string),
       (ts_ms <= last_seen_ts w device_id)%Z -> process w device_id ts_ms p = w) /\
    (forall (w : lc_world) (device_id : string) (ts_ms : Z) (p : string),
       process (process w device_id ts_ms p) device_id ts_ms p = process w device_id ts_ms p) /\
    (forall (w : lc_world) (device_id : string) (ts_ms : Z) (p : string),
       let w1 := process w device_id ts_ms p in
       w1 = w \/
       forall (ts' : Z) (p' : string), (ts' <= ts_ms)%Z -> process w1 device_id ts' p' = w1).
  Proof.
    split; [exact process_guard_noop|]. split.
    - intros w d t p.
      destruct (process_noop_or_records w d t p) as [H|H].
      + rewrite H. rewrite H. reflexivity.
      + apply process_guard_noop. rewrite H. lia.
    - intros w d t p w1.
      destruct (process_noop_or_records w d t p) as [H|H]; [left; exact H|].
      right. intros t' p' Hle. apply process_guard_noop. subst w1. rewrite H. exact Hle.
  Qed.

  (** C10 *)
  (** Claim C10: the first sample processed for a device (no stored state)
      never increments a door-open counter and never accrues idle time: the
      counters are unchanged, and no other device's state changes (only this
      device's state may be recorded). *)
Theorem process_first_sample_no_counters :
    forall (w : lc_world) (device_id : string) (ts_ms : Z) (p : string),
      state_inmem w !! device_id = None ->
      inmem (process w device_id ts_ms p) = inmem w /\
      (forall d : string, d <> device_id ->
         state_inmem (process w device_id ts_ms p) !! d = state_inmem w !! d).
  Proof.
    intros w device_id ts_ms p Hs. subst process. unfold process_pack_out_sample.
    destruct LC_ENABLED; [|split; reflexivity]. simpl.
    destruct (_parse_pack_out p) as [[fl h] dopen].
    rewrite Hs. cbv zeta.
    destruct (ts_ms <=? 0)%Z eqn:Et;
      destruct fl, h, dopen; rewrite ?Et; try (split; reflexivity).
    all: cbn [option_map];
      rewrite ?(bool_decide_eq_false_2 (@None bool = Some false)) by discriminate;
      rewrite ?andb_false_l, ?Z.ltb_irrefl, ?andb_false_r.
    all: destruct (negb _); simpl; (split; [reflexivity|]);
      intros d Hne; apply lookup_insert_ne; congruence.
  Qed.
End LiveCounterProofs.

Definition empty_world : lc_world := {| inmem := ∅; state_inmem := ∅ |}.

Definition sample_parser (_ : string) : option string * option Q * option bool :=
  (Some "1", Some 1000%Q, Some true).

Lemma process_sample_stale_ts_noop_witness :
  let w1 := process_pack_out_sample true 50 (fun _ => "2026-01-01") sample_parser
              empty_world "dev1" 100 "fl=1|h=1000|door=1" in
  (90 <= last_seen_ts w1 "dev1")%Z /\
  process_pack_out_sample true 50 (fun _ => "2026-01-01") sample_parser
    w1 "dev1" 90 "fl=1|h=1000|door=1" = w1.
Proof.
  intros w1.
  assert (H : (90 <= last_seen_ts w1 "dev1")%Z) by (vm_compute; discriminate).
  split; [exact H|].
  exact (proj1 (process_sample_stale_ts_noop true 50 (fun _ => "2026-01-01") sample_parser)
           w1 "dev1" 90%Z "fl=1|h=1000|door=1" H).
Defined.

Lemma process_first_sample_no_counters_witness :
  state_inmem empty_world !! "dev1" = None /\
  inmem (process_pack_out_sample true 50 (fun _ => "2026-01-01") sample_parser
           empty_world "dev1" 100 "fl=1|h=1000|door=1") = ∅.
Proof.
  assert (H : state_inmem empty_world !! "dev1" = None) by reflexivity.
  split; [exact H|].
  exact (proj1 (process_first_sample_no_counters true 50 (fun _ => "2026-01-01") sample_parser
                  empty_world "dev1" 100%Z "fl=1|h=1000|door=1" H)).
Defined.

Lemma parse_pack_raw_tolerant_last_wins_witness :
  omap segment_entry (split_on "|" "a=1|noeq|a=2") = ([("a", "1")] ++ ("a", "2") :: [])%list /\
  ("a" ∉ map fst (@nil (string * string))) /\
  parse_pack_raw "a=1|noeq|a=2" !! "a"
  = Some (coerce_value _to_int _to_float "a" "2" DEFAULT_INT_KEYS DEFAULT_FLOAT_KEYS).
Proof.
  assert (H1 : omap segment_entry (split_on "|" "a=1|noeq|a=2")
               = ([("a", "1")] ++ ("a", "2") :: [])%list) by reflexivity.
  assert (H2 : "a" ∉ map fst (@nil (string * string))) by (simpl; apply not_elem_of_nil).
  split; [exact H1|]. split; [exact H2|].
  destruct parse_pack_raw_tolerant_last_wins as (_ & _ & _ & H).
  exact (H "a=1|noeq|a=2" "a" "2" [("a", "1")] [] H1 H2).
Defined.

(* ================================================================== *)
(** * Further properties *)

Lemma digit_val_char (d : Z) : (0 <= d < 10)%Z -> digit_val (digit_char d) = Some d.
Proof.
  intros Hd.
  assert (d = 0 \/ d = 1 \/ d = 2 \/ d = 3 \/ d = 4 \/ d = 5 \/ d = 6 \/ d = 7 \/ d = 8 \/ d = 9)%Z
    as Hc by lia.
  repeat destruct Hc as [->|Hc]; try reflexivity; subst; reflexivity.
Qed.

Lemma digits_go_S (f : nat) (n : Z) :
  digits_go (S f) n
  = if (n <? 10)%Z then [digit_char n]
    else (digits_go f (n / 10) ++ [digit_char (n mod 10)])%list.
Proof. reflexivity. Qed.

Lemma digits_go_spec (fuel : nat) (n : Z) :
  (0 <= n < 10 ^ Z.of_nat (S fuel))%Z ->
  digits_go (S fuel) n <> [] /\ all_digits (digits_go (S fuel) n) /\
  digits_value 0 (digits_go (S fuel) n) = n.
Proof.
  revert n. induction fuel as [|f IH]; intros n Hn.
  - simpl in Hn. rewrite digits_go_S. destruct (n <? 10)%Z eqn:E; [|apply Z.ltb_ge in E; lia].
    split; [discriminate|]. split.
    + constructor; [|constructor]. exists n. apply digit_val_char. lia.
    + unfold digits_value. cbn [fold_left]. rewrite digit_val_char by lia. cbn [from_option id]. lia.
  - rewrite digits_go_S. destruct (n <? 10)%Z eqn:E.
    + apply Z.ltb_lt in E. split; [discriminate|]. split.
      * constructor; [|constructor]. exists n. apply digit_val_char. lia.
      * unfold digits_value. cbn [fold_left]. rewrite digit_val_char by lia. cbn [from_option id]. lia.
    + apply Z.ltb_ge in E.
      assert (Hq : (0 <= n / 10 < 10 ^ Z.of_nat (S f))%Z).
      { split; [apply Z.div_pos; lia|].
        rewrite (Nat2Z.inj_succ (S f)), Z.pow_succ_r in Hn by lia.
        apply Z.div_lt_upper_bound; lia. }
      destruct (IH (n / 10)%Z Hq) as (Hne & Hall & Hv).
      split; [intros Hc; apply app_eq_nil in Hc as [_ Hc]; discriminate|].
      split.
      * apply Forall_app; split; [exact Hall|].
        constructor; [|constructor]. exists (n mod 10)%Z. apply digit_val_char.
        apply Z.mod_pos_bound. lia.
      * unfold digits_value in *. rewrite fold_left_app, Hv. cbn [fold_left].
        rewrite digit_val_char by (apply Z.mod_pos_bound; lia). cbn [from_option id].
        pose proof (Z.div_mod n 10). lia.
Qed.

Lemma log2_fuel (a : Z) : (0 <= a)%Z -> (a < 10 ^ Z.of_nat (S (Z.to_nat (Z.log2 a))))%Z.
Proof.
  intros Ha. rewrite Nat2Z.inj_succ, Z2Nat.id by apply Z.log2_nonneg.
  destruct (Z.eq_dec a 0) as [->|Hnz]; [simpl; lia|].
  assert (Hlt : (a < 2 ^ Z.succ (Z.log2 a))%Z) by (apply Z.log2_spec; lia).
  eapply Z.lt_le_trans; [exact Hlt|].
  apply Z.pow_le_mono_l. lia.
Qed.

Lemma digitpart_go_digits (acc : Z) (cnt : nat) (l r : list ascii) :
  all_digits l ->
  digitpart_go acc cnt (l ++ r) = digitpart_go (digits_value acc l) (cnt + List.length l) r.
Proof.
  revert acc cnt. induction l as [|c l IH]; intros acc cnt Hl.
  - simpl. rewrite Nat.add_0_r. reflexivity.
  - inversion Hl as [|? ? [d Hd] Hl']; subst.
    cbn [app digitpart_go]. rewrite Hd. rewrite IH by exact Hl'.
    unfold digits_value. cbn [fold_left]. rewrite Hd. cbn [from_option id List.length].
    f_equal. lia.
Qed.

Lemma digitpart_all_digits (l : list ascii) :
  l <> [] -> all_digits l -> digitpart l = Some (digits_value 0 l, List.length l, []).
Proof.
  intros Hne Hl. destruct l as [|c l]; [congruence|].
  inversion Hl as [|? ? [d Hd] Hl']; subst.
  unfold digitpart. rewrite Hd.
  rewrite <- (app_nil_r l). rewrite digitpart_go_digits by exact Hl'.
  rewrite app_nil_r. unfold digits_value. simpl. rewrite Hd. simpl. reflexivity.
Qed.

Lemma digit_not_space (c : ascii) (d : Z) : digit_val c = Some d -> is_space c = false.
Proof.
  unfold digit_val, is_space, ascii_code. intros H.
  destruct (Nat.leb 48 (nat_of_ascii c) && Nat.leb (nat_of_ascii c) 57) eqn:E; [|discriminate].
  apply andb_true_iff in E as [E1 E2]. apply Nat.leb_le in E1, E2.
  apply orb_false_iff. split; apply andb_false_iff.
  - right. apply Nat.leb_gt. lia.
  - right. apply Nat.leb_gt. lia.
Qed.

Lemma drop_spaces_first (c : ascii) (l : list ascii) :
  is_space c = false -> drop_spaces (c :: l) = c :: l.
Proof. intros H. simpl. rewrite H. reflexivity. Qed.

Lemma strip_list_digits_signed (l : list ascii) (pre : list ascii) :
  l <> [] -> all_digits l -> (pre = [] \/ pre = ["-"%char]) ->
  strip_list (pre ++ l) = (pre ++ l)%list.
Proof.
  intros Hne Hl Hpre. unfold strip_list.
  destruct (exists_last Hne) as (l' & z & ->).
  apply Forall_app in Hl as [Hl' Hz]. inversion Hz as [|? ? [dz Hdz] _]; subst.
  assert (Hfirst : drop_spaces (pre ++ l' ++ [z]) = (pre ++ l' ++ [z])%list).
  { destruct Hpre as [Hp | Hp]; subst pre.
    - destruct l' as [|c l'']; simpl.
      + rewrite (digit_not_space z dz Hdz). reflexivity.
      + inversion Hl' as [|? ? [dc Hdc] _]; subst. rewrite (digit_not_space c dc Hdc). reflexivity.
    - reflexivity. }
  rewrite Hfirst. rewrite app_assoc, rev_unit.
  rewrite drop_spaces_first by exact (digit_not_space z dz Hdz).
  cbn [rev]. rewrite rev_involutive. reflexivity.
Qed.

Lemma list_ascii_of_string_of_list (l : list ascii) :
  list_ascii_of_string (string_of_list_ascii l) = l.
Proof. apply list_ascii_of_string_of_list_ascii. Qed.

Lemma py_str_Z_digits (n : Z) :
  exists l, l <> [] /\ all_digits l /\ digits_value 0 l = Z.abs n /\
  list_ascii_of_string (py_str_Z n)
  = ((if (n <? 0)%Z then ["-"%char] else []) ++ l)%list.
Proof.
  exists (digits_go (S (Z.to_nat (Z.log2 (Z.abs n)))) (Z.abs n)).
  destruct (digits_go_spec (Z.to_nat (Z.log2 (Z.abs n))) (Z.abs n)) as (H1 & H2 & H3).
  { split; [lia|]. apply log2_fuel. lia. }
  repeat split; try assumption.
  unfold py_str_Z. apply list_ascii_of_string_of_list.
Qed.

Lemma py_str_Z_parse (n : Z) :
  _to_int (py_str_Z n) = Some n /\ _to_float (py_str_Z n) = Some (inject_Z n).
Proof.
  destruct (py_str_Z_digits n) as (l & Hne & Hall & Hv & Hs).
  assert (Hstrip : strip_list (list_ascii_of_string (py_str_Z n))
                   = ((if (n <? 0)%Z then ["-"%char] else []) ++ l)%list).
  { rewrite Hs. apply strip_list_digits_signed; try assumption.
    destruct (n <? 0)%Z; auto. }
  assert (Hsign : take_sign ((if (n <? 0)%Z then ["-"%char] else []) ++ l)%list
                  = (if (n <? 0)%Z then (-1)%Z else 1%Z, l)).
  { destruct (n <? 0)%Z; [reflexivity|].
    destruct l as [|c l']; [congruence|].
    inversion Hall as [|? ? [d Hd] _]; subst.
    unfold take_sign. simpl.
    destruct (Ascii.eqb c "+") eqn:E1.
    - apply Ascii.eqb_eq in E1; subst. discriminate.
    - destruct (Ascii.eqb c "-") eqn:E2; [apply Ascii.eqb_eq in E2; subst; discriminate|].
      reflexivity. }
  assert (Hsg : ((if (n <? 0)%Z then (-1)%Z else 1%Z) * Z.abs n = n)%Z).
  { destruct (n <? 0)%Z eqn:E; [apply Z.ltb_lt in E | apply Z.ltb_ge in E]; lia. }
  split.
  - unfold _to_int. rewrite Hstrip, Hsign.
    rewrite digitpart_all_digits by assumption. rewrite Hv, Hsg. reflexivity.
  - unfold _to_float. rewrite Hstrip, Hsign. unfold mantissa.
    rewrite digitpart_all_digits by assumption. simpl. rewrite Hv, Hsg.
    unfold pow10_Q. simpl. unfold inject_Z, Qmult. simpl. rewrite Z.mul_1_r. reflexivity.
Qed.




Lemma digit_code_le (c : ascii) (d : Z) : digit_val c = Some d -> (nat_of_ascii c <= 57)%nat.
Proof.
  unfold digit_val, ascii_code.
  destruct (Nat.leb 48 (nat_of_ascii c) && Nat.leb (nat_of_ascii c) 57) eqn:E; [|discriminate].
  intros _. apply andb_true_iff in E as [_ E]. apply Nat.leb_le in E. exact E.
Qed.

Lemma upper_map_id (l : list ascii) :
  Forall sign_or_digit l ->
  map Ascii.ascii_of_nat
    (map (fun c => let n := ascii_code c in
                   if Nat.leb 97 n && Nat.leb n 122 then n - 32 else n) l) = l.
Proof.
  intros Hl. rewrite List.map_map. rewrite <- (List.map_id l) at 2.
  apply List.map_ext_in. intros c Hin.
  pose proof (proj1 (List.Forall_forall _ _) Hl c Hin) as Hc.
  assert (Hle : (nat_of_ascii c <= 57)%nat).
  { destruct Hc as [->|[d Hd]]; [vm_compute; lia|exact (digit_code_le c d Hd)]. }
  unfold ascii_code.
  replace (Nat.leb 97 (nat_of_ascii c)) with false by (symmetry; apply Nat.leb_gt; lia).
  cbn [andb]. apply ascii_nat_embedding.
Qed.

Lemma py_str_Z_chars (n : Z) :
  Forall sign_or_digit (list_ascii_of_string (py_str_Z n)) /\
  (exists c r, list_ascii_of_string (py_str_Z n) = c :: r /\ sign_or_digit c).
Proof.
  destruct (py_str_Z_digits n) as (l & Hne & Hall & _ & Hs). rewrite Hs.
  assert (Hl : Forall sign_or_digit l).
  { eapply Forall_impl; [exact Hall|]. intros c Hc. right. exact Hc. }
  split.
  - apply Forall_app. split; [|exact Hl].
    destruct (n <? 0)%Z; [constructor; [left; reflexivity|constructor]|constructor].
  - destruct (n <? 0)%Z.
    + exists "-"%char, l. split; [reflexivity|left; reflexivity].
    + destruct l as [|c r]; [congruence|]. exists c, r. split; [reflexivity|].
      inversion Hl; assumption.
Qed.

Lemma py_str_Z_strip (n : Z) :
  strip_list (list_ascii_of_string (py_str_Z n)) = list_ascii_of_string (py_str_Z n).
Proof.
  destruct (py_str_Z_digits n) as (l & Hne & Hall & _ & Hs). rewrite Hs.
  apply strip_list_digits_signed; try assumption. destruct (n <? 0)%Z; auto.
Qed.

Lemma py_str_Z_not_word (n : Z) (w : string) (c : ascii) (r : string) :
  w = String c r -> ~ sign_or_digit c -> py_str_Z n <> w.
Proof.
  intros -> Hc Heq. destruct (py_str_Z_chars n) as [_ (c' & r' & Hs & Hc')].
  rewrite Heq in Hs. simpl in Hs. injection Hs as -> _. contradiction.
Qed.

Lemma not_sign_or_digit_letter (c : ascii) :
  (65 <= nat_of_ascii c <= 90)%nat -> ~ sign_or_digit c.
Proof.
  intros Hc [->|[d Hd]].
  - vm_compute in Hc. lia.
  - unfold digit_val, ascii_code in Hd.
    replace (Nat.leb (nat_of_ascii c) 57) with false in Hd by (symmetry; apply Nat.leb_gt; lia).
    rewrite andb_false_r in Hd. discriminate.
Qed.

(** [door_to_bit] only ever yields 0 or 1, and the decimal string of an int
    gives the same bit as the int itself. *)
Theorem door_to_bit_binary_numeric (v : option pval) (b n : Z) :
  (door_to_bit v = Some b -> b = 0%Z \/ b = 1%Z) /\
  door_to_bit (Some (PStr (py_str_Z n))) = door_to_bit (Some (PInt n)).
Proof.
  split.
  - unfold door_to_bit. destruct v as [[|m|f|s]|]; try discriminate.
    + intros H. injection H as <-. destruct (Z.eqb m 0); auto.
    + intros H. injection H as <-. destruct (Z.eqb _ 0); auto.
    + destruct (String.eqb _ "OPEN"); [intros H; injection H as <-; auto|].
      destruct (String.eqb _ "CLOSED" || String.eqb _ "CLOSE");
        [intros H; injection H as <-; auto|].
      destruct (_to_int _) as [iv|]; [|discriminate].
      intros H. injection H as <-. destruct (Z.eqb iv 0); auto.
  - unfold door_to_bit. rewrite py_str_Z_strip.
    rewrite upper_map_id by apply (proj1 (py_str_Z_chars n)).
    rewrite string_of_list_ascii_of_string.
    assert (Hne : forall w c r, w = String c r -> (65 <= nat_of_ascii c <= 90)%nat ->
                                String.eqb (py_str_Z n) w = false).
    { intros w c r Hw Hc. apply String.eqb_neq.
      eapply py_str_Z_not_word; [exact Hw|]. apply not_sign_or_digit_letter. exact Hc. }
    rewrite (Hne "OPEN" "O"%char "PEN") by (reflexivity || (vm_compute; lia)).
    rewrite (Hne "CLOSED" "C"%char "LOSED") by (reflexivity || (vm_compute; lia)).
    rewrite (Hne "CLOSE" "C"%char "LOSE") by (reflexivity || (vm_compute; lia)).
    cbn [orb]. rewrite (proj1 (py_str_Z_parse n)). reflexivity.
Qed.



Lemma list_ascii_of_string_app (a b : string) :
  list_ascii_of_string (a ++ b) = (list_ascii_of_string a ++ list_ascii_of_string b)%list.
Proof. induction a as [|x a IH]; simpl; [reflexivity|]. rewrite IH. reflexivity. Qed.

Lemma split_on_nonempty (c : ascii) (s : string) : split_on c s <> [].
Proof.
  destruct s as [|x r]; simpl; [discriminate|].
  destruct (Ascii.eqb x c); [discriminate|]. destruct (split_on c r); discriminate.
Qed.

Lemma split_on_app (c : ascii) (s1 s2 : string) :
  split_on c (s1 ++ String c s2) = (split_on c s1 ++ split_on c s2)%list.
Proof.
  induction s1 as [|x r IH]; simpl.
  - rewrite Ascii.eqb_refl. reflexivity.
  - rewrite IH. destruct (Ascii.eqb x c); [reflexivity|].
    destruct (split_on c r) eqn:E; [exfalso; exact (split_on_nonempty c r E)|]. reflexivity.
Qed.

Lemma split_on_no_char (c : ascii) (s : string) : no_char c s -> split_on c s = [s].
Proof.
  induction s as [|x r IH]; intros H; simpl; [reflexivity|].
  destruct (Ascii.eqb x c) eqn:E.
  - apply Ascii.eqb_eq in E. subst. exfalso. apply H. left. reflexivity.
  - rewrite IH; [reflexivity|]. intros Hin. apply H. right. exact Hin.
Qed.

Lemma split_on_pieces_no_char (c : ascii) (s : string) :
  Forall (no_char c) (split_on c s).
Proof.
  induction s as [|x r IH]; simpl.
  - constructor; [intros []|constructor].
  - destruct (Ascii.eqb x c) eqn:E.
    + constructor; [intros []|exact IH].
    + apply Ascii.eqb_neq in E.
      destruct (split_on c r) as [|h t]; [constructor; [|constructor]|].
      * intros [Hx|[]]. congruence.
      * inversion IH as [|? ? Hh Ht]; subst. constructor; [|exact Ht].
        intros [Hx|Hin]; [congruence|]. exact (Hh Hin).
Qed.

Lemma concat_cons2 (sep a b : string) (l : list string) :
  String.concat sep (a :: b :: l) = a ++ sep ++ String.concat sep (b :: l).
Proof. reflexivity. Qed.

Lemma split_on_concat (c : ascii) (l : list string) :
  l <> [] -> Forall (no_char c) l -> split_on c (String.concat (String c "") l) = l.
Proof.
  induction l as [|a l IH]; intros Hne Hl; [congruence|].
  inversion Hl as [|? ? Ha Hl']; subst.
  destruct l as [|b l].
  - simpl. apply split_on_no_char. exact Ha.
  - rewrite concat_cons2.
    replace (String c "" ++ String.concat (String c "") (b :: l))
      with (String c (String.concat (String c "") (b :: l))) by reflexivity.
    rewrite split_on_app.
    rewrite split_on_no_char by exact Ha. rewrite IH by (discriminate || exact Hl'). reflexivity.
Qed.

Lemma str_app_cons (x : ascii) (a s : string) : String x a ++ s = String x (a ++ s).
Proof. reflexivity. Qed.

Lemma str_app_assoc (a b c : string) : a ++ (b ++ c) = (a ++ b) ++ c.
Proof. induction a as [|x a IH]; [reflexivity|]. rewrite !str_app_cons, IH. reflexivity. Qed.

Lemma concat_nested (sep : string) (a : list string) (b : list string) :
  a <> [] -> String.concat sep (String.concat sep a :: b) = String.concat sep (a ++ b).
Proof.
  intros Ha. destruct b as [|y b]; [rewrite app_nil_r; reflexivity|].
  induction a as [|x a IH]; [congruence|].
  destruct a as [|x' a].
  - reflexivity.
  - rewrite (concat_cons2 sep (String.concat sep (x :: x' :: a)) y b).
    rewrite (concat_cons2 sep x x' a).
    change ((x :: x' :: a) ++ y :: b)%list with (x :: x' :: (a ++ y :: b))%list.
    rewrite (concat_cons2 sep x x' (a ++ y :: b)).
    change (x' :: (a ++ y :: b))%list with ((x' :: a) ++ y :: b)%list.
    rewrite <- IH by discriminate.
    rewrite (concat_cons2 sep (String.concat sep (x' :: a)) y b).
    rewrite !str_app_assoc. reflexivity.
Qed.

Lemma split_first_kv (c : ascii) (k v : string) :
  no_char c k -> split_first c (k ++ String c v) = Some (k, v).
Proof.
  induction k as [|x k IH]; intros Hk; simpl.
  - rewrite Ascii.eqb_refl. reflexivity.
  - destruct (Ascii.eqb x c) eqn:E.
    + apply Ascii.eqb_eq in E. subst. exfalso. apply Hk. left. reflexivity.
    + rewrite IH; [reflexivity|]. intros Hin. apply Hk. right. exact Hin.
Qed.

Lemma kv_seg_no_char (c : ascii) (k v : string) :
  no_char c k -> c <> "="%char -> no_char c v -> no_char c (kv_seg (k, v)).
Proof.
  intros Hk Heq Hv. unfold kv_seg, no_char. simpl.
  rewrite list_ascii_of_string_app. simpl.
  intros Hin. apply in_app_or in Hin as [Hin|[Hin|Hin]]; [exact (Hk Hin)|congruence|exact (Hv Hin)].
Qed.

Lemma kv_step_seg (m : gmap string string) (k v : string) :
  no_char "=" k -> kv_step m (kv_seg (k, v)) = <[k := v]> m.
Proof.
  intros Hk. unfold kv_step, kv_seg. cbn [fst snd].
  change ("=" ++ v) with (String "=" v). rewrite split_first_kv by exact Hk. reflexivity.
Qed.

(** The [k=v|k=v] dictionary of segments built from pairs. *)
Lemma kv_parts_pairs (pairs : list (string * string)) :
  pairs <> [] ->
  Forall (fun p => no_char "|" p.1 /\ no_char "=" p.1 /\ no_char "|" p.2) pairs ->
  kv_parts (String.concat "|" (map kv_seg pairs))
  = fold_left (fun m p => <[p.1 := p.2]> m) pairs ∅.
Proof.
  intros Hne Hp. unfold kv_parts.
  rewrite split_on_concat.
  - generalize (∅ : gmap string string) as m. induction pairs as [|[k v] pairs IH]; intros m; [reflexivity|].
    inversion Hp as [|? ? (Hk1 & Hk2 & Hv) Hp']; subst.
    cbn [map fold_left]. rewrite kv_step_seg by exact Hk2.
    destruct pairs as [|p' pairs]; [reflexivity|]. apply IH; [discriminate|exact Hp'].
  - destruct pairs; [congruence|discriminate].
  - apply Forall_map. eapply Forall_impl; [exact Hp|].
    intros [k v] (H1 & _ & H3). apply kv_seg_no_char; [exact H1|discriminate|exact H3].
Qed.

Lemma no_char_of_forallb (c : ascii) (s : string) :
  forallb (fun x => negb (Ascii.eqb x c)) (list_ascii_of_string s) = true -> no_char c s.
Proof.
  intros H Hin. apply forallb_forall with (x := c) in H; [|exact Hin].
  rewrite Ascii.eqb_refl in H. discriminate.
Qed.

Lemma bar_not_sign_or_digit : ~ sign_or_digit "|"%char.
Proof. intros [H|[d H]]; [discriminate|vm_compute in H; discriminate]. Qed.

Lemma py_str_Z_no_char (c : ascii) (n : Z) : ~ sign_or_digit c -> no_char c (py_str_Z n).
Proof.
  intros Hc Hin. destruct (py_str_Z_chars n) as [Hall _].
  apply Hc. exact (proj1 (List.Forall_forall _ _) Hall c Hin).
Qed.

Lemma py_str_Z_strip_eq (n : Z) : strip (py_str_Z n) = py_str_Z n.
Proof. unfold strip. rewrite py_str_Z_strip. apply string_of_list_ascii_of_string. Qed.

Lemma py_str_Z_nonempty (n : Z) : String.eqb (py_str_Z n) "" = false.
Proof.
  destruct (py_str_Z_chars n) as [_ (c & r & Hs & _)].
  apply String.eqb_neq. intros He. rewrite He in Hs. discriminate.
Qed.

Lemma segment_entry_kv (k v : string) :
  k <> "" -> strip k = k -> no_char "=" k -> segment_entry (kv_seg (k, v)) = Some (k, strip v).
Proof.
  intros Hne Hs Hk. unfold segment_entry, kv_seg. cbn [fst snd].
  change ("=" ++ v) with (String "=" v).
  assert (Hnz : String.eqb (k ++ String "=" v) "" = false).
  { apply String.eqb_neq. destruct k as [|x k]; [congruence|]. rewrite str_app_cons. discriminate. }
  rewrite Hnz, split_first_kv by exact Hk. rewrite Hs.
  apply String.eqb_neq in Hne. rewrite Hne. reflexivity.
Qed.

Ltac pack_key_ok_tac :=
  split; [discriminate|split; [reflexivity|split; apply no_char_of_forallb; reflexivity]].

Lemma parse_pack_raw_pairs (pairs : list (string * string)) :
  pairs <> [] ->
  Forall (fun p => pack_key_ok p.1 /\ no_char "|" p.2) pairs ->
  parse_pack_raw (String.concat "|" (map kv_seg pairs))
  = fold_left (fun (m : gmap string pval) (e : string * string) =>
        <[e.1 := coerce_value _to_int _to_float e.1 (strip e.2)
                   (DEFAULT_INT_KEYS ++ [])%list (DEFAULT_FLOAT_KEYS ++ [])%list]> m) pairs ∅.
Proof.
  intros Hne Hp. unfold parse_pack_raw. rewrite parse_pack_raw_with_entries.
  rewrite split_on_concat.
  - clear Hne. generalize (∅ : gmap string pval) as m.
    induction pairs as [|[k v] pairs IH]; intros m; [reflexivity|].
    inversion Hp as [|? ? ((Hk0 & Hk1 & Hk2 & _) & _) Hp']; subst.
    cbn [map].
    change (omap segment_entry (kv_seg (k, v) :: map kv_seg pairs))
      with (match segment_entry (kv_seg (k, v)) with
            | Some y => y :: omap segment_entry (map kv_seg pairs)
            | None => omap segment_entry (map kv_seg pairs) end).
    rewrite segment_entry_kv by assumption.
    cbn [fold_left fst snd]. apply IH. exact Hp'.
  - destruct pairs; [congruence|discriminate].
  - apply Forall_map. eapply Forall_impl; [exact Hp|].
    intros [k v] ((_ & _ & _ & H1) & H3). apply kv_seg_no_char; [exact H1|discriminate|exact H3].
Qed.

Lemma coerce_int_key (k : string) (n : Z) ik fk :
  mem_key k ik = true -> coerce_value _to_int _to_float k (py_str_Z n) ik fk = PInt n.
Proof.
  intros H. unfold coerce_value. rewrite py_str_Z_nonempty, H.
  rewrite (proj1 (py_str_Z_parse n)). reflexivity.
Qed.

Lemma coerce_float_key (k : string) (n : Z) ik fk :
  mem_key k ik = false -> mem_key k fk = true ->
  coerce_value _to_int _to_float k (py_str_Z n) ik fk = PFloat (inject_Z n).
Proof.
  intros H1 H2. unfold coerce_value. rewrite py_str_Z_nonempty, H1, H2.
  rewrite (proj2 (py_str_Z_parse n)). reflexivity.
Qed.

Lemma coerce_str_key (k s : string) ik fk :
  mem_key k ik = false -> mem_key k fk = false ->
  coerce_value _to_int _to_float k s ik fk = if String.eqb s "" then PNone else PStr s.
Proof. intros H1 H2. unfold coerce_value. rewrite H1, H2. reflexivity. Qed.

Lemma no_char_empty (c : ascii) : no_char c "".
Proof. intros []. Qed.

Lemma pack_calc_pairs_ok ts_sec h fi fl dirc status door_bit :
  no_char "|" fl -> no_char "|" dirc -> no_char "|" status ->
  Forall (fun p => pack_key_ok p.1 /\ no_char "|" p.2)
         (pack_calc_pairs ts_sec h fi fl dirc status door_bit).
Proof.
  intros Hfl Hd Hs. pose proof bar_not_sign_or_digit as Hb.
  unfold pack_calc_pairs.
  destruct door_bit;
    repeat (constructor;
            [split; [cbn [fst]; pack_key_ok_tac
                    |cbn [snd]; first [apply py_str_Z_no_char; exact Hb
                                      |assumption|apply no_char_empty]]|]);
    constructor.
Qed.

(** [parse_pack_raw] reads back every field written by [_build_pack_calc]. *)
Theorem pack_calc_round_trip (ts_sec : Z) (h : Q) (fi : nat) (fl dirc status : string)
  (door_bit : option Z) :
  no_char "|" fl -> no_char "|" dirc -> no_char "|" status ->
  let p := parse_pack_raw (_build_pack_calc ts_sec h fi fl dirc status door_bit) in
  p !! "v" = Some (PInt 1) /\
  p !! "ts" = Some (PInt ts_sec) /\
  p !! "h" = Some (PFloat (inject_Z (round_half_even h))) /\
  p !! "fi" = Some (PInt (Z.of_nat fi)) /\
  p !! "fl" = Some (if String.eqb (strip fl) "" then PNone else PStr (strip fl)) /\
  p !! "dir" = Some (if String.eqb (strip dirc) "" then PNone else PStr (strip dirc)) /\
  p !! "st" = Some (if String.eqb (strip status) "" then PNone else PStr (strip status)) /\
  p !! "door" = Some (match door_bit with Some b => PInt b | None => PNone end) /\
  ts_millis p None = Some (ts_sec * 1000)%Z.
Proof.
  intros Hfl Hd Hs p.
  assert (Hp : p = fold_left (fun (m : gmap string pval) (e : string * string) =>
        <[e.1 := coerce_value _to_int _to_float e.1 (strip e.2)
                   (DEFAULT_INT_KEYS ++ [])%list (DEFAULT_FLOAT_KEYS ++ [])%list]> m)
        (pack_calc_pairs ts_sec h fi fl dirc status door_bit) ∅).
  { apply parse_pack_raw_pairs; [discriminate|]. apply pack_calc_pairs_ok; assumption. }
  clearbody p. subst p. unfold pack_calc_pairs. cbn [fold_left fst snd].
  rewrite !py_str_Z_strip_eq.
  destruct door_bit as [b|]; [rewrite py_str_Z_strip_eq|];
  (split; [simplify_map_eq; f_equal; apply coerce_int_key; reflexivity|]);
  (split; [simplify_map_eq; f_equal; apply coerce_int_key; reflexivity|]);
  (split; [simplify_map_eq; f_equal; apply coerce_float_key; reflexivity|]);
  (split; [simplify_map_eq; f_equal; apply coerce_int_key; reflexivity|]);
  (split; [simplify_map_eq; f_equal; apply coerce_str_key; reflexivity|]);
  (split; [simplify_map_eq; f_equal; apply coerce_str_key; reflexivity|]);
  (split; [simplify_map_eq; f_equal; apply coerce_str_key; reflexivity|]);
  (split; [simplify_map_eq; f_equal; first [apply coerce_int_key; reflexivity | reflexivity]|]);
  unfold ts_millis, ts_seconds; simplify_map_eq; rewrite coerce_int_key by reflexivity; reflexivity.
Qed.

Lemma drop_spaces_incl (x : ascii) (l : list ascii) : In x (drop_spaces l) -> In x l.
Proof.
  induction l as [|c l IH]; simpl; [tauto|].
  destruct (is_space c); [intros H; right; exact (IH H)|tauto].
Qed.

Lemma strip_no_char (c : ascii) (s : string) : no_char c s -> no_char c (strip s).
Proof.
  intros H Hin. apply H. unfold strip in Hin.
  rewrite list_ascii_of_string_of_list in Hin. unfold strip_list in Hin.
  apply in_rev, drop_spaces_incl, in_rev, drop_spaces_incl in Hin. exact Hin.
Qed.

Lemma split_first_snd_no_char (c d : ascii) (s a b : string) :
  split_first d s = Some (a, b) -> no_char c s -> no_char c b.
Proof.
  revert a. induction s as [|x r IH]; intros a; simpl; [discriminate|].
  destruct (Ascii.eqb x d).
  - intros Hs Hn Hin. injection Hs as _ <-. apply Hn. right. exact Hin.
  - destruct (split_first d r) as [[a' b']|] eqn:E; [|discriminate].
    intros Hs Hn. injection Hs as _ <-. apply (IH a'); [reflexivity|].
    intros Hin. apply Hn. right. exact Hin.
Qed.

Lemma segment_entry_no_char (c : ascii) (p k v : string) :
  segment_entry p = Some (k, v) -> no_char c p -> no_char c v.
Proof.
  unfold segment_entry. destruct (String.eqb p ""); [discriminate|].
  destruct (split_first "=" p) as [[k0 v0]|] eqn:E; [|discriminate].
  destruct (String.eqb (strip k0) ""); [discriminate|].
  intros Hs Hn. injection Hs as _ <-. apply strip_no_char.
  exact (split_first_snd_no_char c "=" p k0 v0 E Hn).
Qed.

Lemma coerce_value_str ti tf (k v s : string) ik fk :
  coerce_value ti tf k v ik fk = PStr s -> s = v.
Proof.
  unfold coerce_value. destruct (String.eqb v ""); [discriminate|].
  destruct (mem_key k ik); [destruct (ti v); congruence|].
  destruct (mem_key k fk); [destruct (tf v); congruence|congruence].
Qed.

Lemma fold_coerce_str_inv ti tf ik fk (P : string -> Prop) (l : list (string * string)) :
  Forall (fun e : string * string => P e.2) l ->
  forall (m : gmap string pval),
  (forall k s, m !! k = Some (PStr s) -> P s) ->
  forall k s, fold_left (fun (out : gmap string pval) (e : string * string) =>
                 <[e.1 := coerce_value ti tf e.1 e.2 ik fk]> out) l m !! k = Some (PStr s) -> P s.
Proof.
  induction 1 as [|[k' v'] l Hv Hl IH]; intros m Hm; [exact Hm|].
  apply IH. intros k s. cbn [fst snd] in *. destruct (decide (k = k')) as [->|Hne].
  - rewrite lookup_insert_eq. intros Hs. injection Hs as Hs.
    apply coerce_value_str in Hs. subst s. exact Hv.
  - rewrite lookup_insert_ne by (intros Heq; apply Hne; symmetry; exact Heq). apply Hm.
Qed.

(** The text values of a parsed pack never contain the separator. *)
Lemma parse_pack_raw_str_no_bar (raw k s : string) :
  parse_pack_raw raw !! k = Some (PStr s) -> no_char "|" s.
Proof.
  unfold parse_pack_raw. rewrite parse_pack_raw_with_entries.
  apply fold_coerce_str_inv.
  - apply Forall_forall. intros [k' v'] Hin. apply list_elem_of_omap in Hin as (p & Hp & He).
    apply (segment_entry_no_char "|" p k' v' He).
    apply (proj1 (Forall_forall _ _) (split_on_pieces_no_char "|" raw) p Hp).
  - intros k' s'. rewrite lookup_empty. discriminate.
Qed.

Lemma fold_ins_other {A} (l : list (string * A)) (m : gmap string A) (k : string) :
  ~ In k (map fst l) -> fold_left (fun m p => <[p.1 := p.2]> m) l m !! k = m !! k.
Proof.
  revert m. induction l as [|[k' v'] l IH]; intros m Hk; [reflexivity|].
  cbn [fold_left fst snd]. rewrite IH by (intros Hin; apply Hk; right; exact Hin).
  apply lookup_insert_ne. intros ->. apply Hk. left. reflexivity.
Qed.

Lemma option_map_Some_inv {A B} (f : A -> B) (o : option A) (y : B) :
  option_map f o = Some y -> exists x, o = Some x /\ f x = y.
Proof. destruct o as [x|]; [intros H; injection H as <-; eauto|discriminate]. Qed.

Section PackOutRoundTrip.
Variable py_str_float : Q -> string.
Hypothesis py_str_float_no_bar : forall q, no_char "|" (py_str_float q).

Lemma raw_export_pair_key (r : gmap string pval) e k s :
  raw_export_pair py_str_float r e = Some (k, s) -> k = e.1.
Proof.
  destruct e as [key fb]. unfold raw_export_pair. cbv zeta.
  intros H. apply option_map_Some_inv in H as (x & _ & Hx). injection Hx as <- _. reflexivity.
Qed.

Lemma raw_export_pair_no_bar (r : gmap string pval) e k s :
  (forall k s, r !! k = Some (PStr s) -> no_char "|" s) ->
  raw_export_pair py_str_float r e = Some (k, s) -> no_char "|" s.
Proof.
  intros Hr. destruct e as [key fb]. unfold raw_export_pair. cbv zeta.
  assert (Hget : forall k', match r !! k' with
                            | Some v => py_str_pval py_str_float v | None => None end = Some s ->
                            no_char "|" s).
  { intros k'. destruct (r !! k') as [v|] eqn:E; [|discriminate].
    destruct v; cbn [py_str_pval]; intros H; try discriminate; injection H as <-.
    - apply py_str_Z_no_char, bar_not_sign_or_digit.
    - apply py_str_float_no_bar.
    - exact (Hr k' _ E). }
  intros H. apply option_map_Some_inv in H as (x & Hx & Hxs). injection Hxs as _ ->.
  revert Hx. destruct (match r !! key with
                       | Some v => py_str_pval py_str_float v | None => None end) eqn:E1.
  - intros Hx. injection Hx as ->. exact (Hget key E1).
  - destruct fb as [fb|]; [|discriminate].
    destruct (String.eqb fb ""); [discriminate|]. apply Hget.
Qed.
Lemma raw_export_keys (r : gmap string pval) (k : string) :
  In k (map fst (omap (raw_export_pair py_str_float r) _RAW_EXPORT_MAP)) ->
  In k (map fst _RAW_EXPORT_MAP).
Proof.
  intros Hin. apply in_map_iff in Hin as ([k' s] & <- & Hin).
  apply list_elem_of_In, list_elem_of_omap in Hin as (e & He & Hs).
  cbn [fst]. rewrite (raw_export_pair_key r e k' s Hs).
  apply in_map, list_elem_of_In, He.
Qed.

Variable json_fields : string -> option (option string * option Q * option bool).
Hypothesis json_fields_object : forall v r, json_fields v = Some r -> json_may_be_object v = true.

Theorem pack_out_round_trip (raw : string) (ts_sec : Z) (h : Q) (fi : nat)
  (fl dirc status : string) (door_bit : option Z) :
  no_char "|" fl -> no_char "|" dirc -> no_char "|" status ->
  _parse_pack_out json_fields
    (_build_pack_out py_str_float (_build_pack_calc ts_sec h fi fl dirc status door_bit)
                     (parse_pack_raw raw) h fl door_bit)
  = (Some fl, Some (inject_Z (round_half_even h)),
     option_map (fun b => negb (b =? 0)%Z) door_bit).
Proof.
  intros Hfl Hd Hs.
  set (P := pack_calc_pairs ts_sec h fi fl dirc status door_bit).
  set (D := match door_bit with Some b => [("door_open", py_str_Z b)] | None => [] end).
  set (R := omap (raw_export_pair py_str_float (parse_pack_raw raw)) _RAW_EXPORT_MAP).
  set (A := [("floor_label", fl); ("height", py_str_Z (round_half_even h))]).
  assert (Hv : _build_pack_out py_str_float (_build_pack_calc ts_sec h fi fl dirc status door_bit)
                 (parse_pack_raw raw) h fl door_bit
               = String.concat "|" (map kv_seg (P ++ A ++ D ++ R))).
  { unfold _build_pack_out, _build_pack_calc.
    rewrite concat_nested by (unfold pack_calc_pairs; destruct door_bit; discriminate).
    rewrite map_app. reflexivity. }
  assert (Hstart : exists r, String.concat "|" (map kv_seg (P ++ A ++ D ++ R)) = String "v" r).
  { eexists. reflexivity. }
  destruct Hstart as (r & Hr).
  assert (Hok : Forall (fun p => no_char "|" p.1 /\ no_char "=" p.1 /\ no_char "|" p.2)
                       (P ++ A ++ D ++ R)).
  { pose proof bar_not_sign_or_digit as Hb.
    apply Forall_app. split.
    { eapply Forall_impl; [apply pack_calc_pairs_ok; assumption|].
      intros p ((_ & _ & H1 & H2) & H3). tauto. }
    apply Forall_app. split.
    { unfold A. repeat constructor; cbn [fst snd];
        first [ apply no_char_of_forallb; reflexivity | apply py_str_Z_no_char; exact Hb
              | assumption ]. }
    apply Forall_app. split.
    { unfold D. destruct door_bit; repeat constructor; cbn [fst snd];
        first [ apply no_char_of_forallb; reflexivity | apply py_str_Z_no_char; exact Hb ]. }
    apply Forall_forall. intros [k s] Hin.
    pose proof Hin as Hin'. apply list_elem_of_omap in Hin as (e & He & Hes).
    assert (HK : Forall (fun e : string * option string => no_char "|" e.1 /\ no_char "=" e.1)
                        _RAW_EXPORT_MAP)
      by (repeat constructor; apply no_char_of_forallb; reflexivity).
    destruct (proj1 (Forall_forall _ _) HK e He) as [HK1 HK2].
    rewrite (raw_export_pair_key _ e k s Hes). cbn [fst].
    split; [exact HK1|split; [exact HK2|]].
    - apply (raw_export_pair_no_bar (parse_pack_raw raw) e k s); [|exact Hes].
      apply parse_pack_raw_str_no_bar. }
  unfold _parse_pack_out. rewrite Hv, Hr.
  cbn [String.eqb].
  destruct (json_fields (String "v" r)) as [res|] eqn:J.
  { apply json_fields_object in J. discriminate J. }
  rewrite <- Hr. unfold _parse_pack_out_kv.
  rewrite kv_parts_pairs by (try exact Hok; unfold P, pack_calc_pairs; destruct door_bit; discriminate).
  rewrite !app_assoc, fold_left_app.
  assert (HR : forall k, ~ In k (map fst _RAW_EXPORT_MAP) ->
     fold_left (fun m p => <[p.1 := p.2]> m) R
       (fold_left (fun (m : gmap string string) p => <[p.1 := p.2]> m) ((P ++ A) ++ D) ∅) !! k
     = fold_left (fun (m : gmap string string) p => <[p.1 := p.2]> m) ((P ++ A) ++ D) ∅ !! k).
  { intros k Hk. apply fold_ins_other. intros Hin. apply Hk.
    exact (raw_export_keys _ k Hin). }
  rewrite !HR by (cbn; intuition discriminate).
  unfold P, A, D, pack_calc_pairs. destruct door_bit as [b|]; cbn [app fold_left fst snd].
  - simplify_map_eq. cbn [py_or_str].
    rewrite (proj2 (py_str_Z_parse _)), (proj1 (py_str_Z_parse b)).
    destruct (String.eqb fl "") eqn:E; [apply String.eqb_eq in E; subst fl|]; reflexivity.
  - simplify_map_eq. cbn [py_or_str].
    rewrite (proj2 (py_str_Z_parse _)).
    destruct (String.eqb fl "") eqn:E; [apply String.eqb_eq in E; subst fl|]; reflexivity.
Qed.
End PackOutRoundTrip.

Lemma mem_key_In (k : string) (ks : list string) : mem_key k ks = true -> In k ks.
Proof.
  unfold mem_key. intros H. apply existsb_exists in H as (x & Hx & Hk).
  apply String.eqb_eq in Hk. subst. exact Hx.
Qed.

Lemma In_mem_key (k : string) (ks : list string) : In k ks -> mem_key k ks = true.
Proof.
  unfold mem_key. intros H. apply existsb_exists. exists k. split; [exact H|apply String.eqb_refl].
Qed.

Lemma load_tb_accounts_nonempty json_object tb_accounts tb_base_url :
  _load_tb_accounts json_object tb_accounts tb_base_url <> [].
Proof.
  unfold _load_tb_accounts. destruct (String.eqb _ ""); [discriminate|].
  destruct (json_object _) as [[|p l]|]; discriminate.
Qed.

Lemma resolve_account_in (accounts : list (string * string)) (x : option string) :
  accounts <> [] ->
  exists k, _resolve_account accounts x = Some k /\ In k (map fst accounts).
Proof.
  intros Hne.
  assert (Hh : exists k, head (map fst accounts) = Some k /\ In k (map fst accounts)).
  { destruct accounts as [|[k v] r]; [congruence|]. exists k. simpl. auto. }
  unfold _resolve_account. destruct x as [x|]; [|exact Hh].
  destruct (String.eqb x ""); [exact Hh|].
  destruct (mem_key x (map fst accounts)) eqn:E1; [exists x; split; [reflexivity|apply mem_key_In, E1]|].
  destruct (mem_key (py_lower x) (map fst accounts)) eqn:E2; [|exact Hh].
  exists (py_lower x). split; [reflexivity|apply mem_key_In, E2].
Qed.

(** [_resolve_account] always names a configured account, and a non-empty
    configured account id sent in the header is used as it is. *)
Theorem resolve_account_configured json_object (tb_accounts tb_base_url : string)
  (x_account_id : option string) :
  let accounts := _load_tb_accounts json_object tb_accounts tb_base_url in
  (exists k, _resolve_account accounts x_account_id = Some k /\ In k (map fst accounts)) /\
  (forall x, x_account_id = Some x -> x <> "" -> In x (map fst accounts) ->
     _resolve_account accounts x_account_id = Some x).
Proof.
  intros accounts. split.
  - apply resolve_account_in, load_tb_accounts_nonempty.
  - intros x -> Hx Hin. unfold _resolve_account.
    apply String.eqb_neq in Hx. rewrite Hx, In_mem_key by exact Hin. reflexivity.
Qed.

Lemma calc_resolve_in (accounts : list (string * string)) (cands : list (option string)) :
  accounts <> [] ->
  exists k, CalculatedTelemetry._resolve_account accounts cands = Some k /\ In k (map fst accounts).
Proof.
  intros Hne.
  assert (Hh : exists k, head (map fst accounts) = Some k /\ In k (map fst accounts)).
  { destruct accounts as [|[k v] r]; [congruence|]. exists k. simpl. auto. }
  induction cands as [|x rest IH]; [exact Hh|].
  cbn [CalculatedTelemetry._resolve_account]. destruct x as [x0|]; [|exact IH].
  destruct (String.eqb x0 ""); [exact IH|].
  destruct (String.eqb (strip x0) ""); [exact IH|].
  destruct (mem_key (strip x0) (map fst accounts)) eqn:E1.
  { exists (strip x0). split; [reflexivity|apply mem_key_In, E1]. }
  destruct (mem_key (py_lower (strip x0)) (map fst accounts)) eqn:E2; [|exact IH].
  exists (py_lower (strip x0)). split; [reflexivity|apply mem_key_In, E2].
Qed.

(** [_resolve_account] of [calculated_telemetry.py] always names a configured
    account, and a first candidate whose stripped value is a configured id
    wins. *)
Theorem calc_resolve_account_configured json_object (tb_accounts tb_base_url : string)
  (candidates : list (option string)) :
  let accounts := _load_tb_accounts json_object tb_accounts tb_base_url in
  (exists k, CalculatedTelemetry._resolve_account accounts candidates = Some k /\
             In k (map fst accounts)) /\
  (forall x rest, candidates = Some x :: rest -> strip x <> "" ->
     In (strip x) (map fst accounts) ->
     CalculatedTelemetry._resolve_account accounts candidates = Some (strip x)).
Proof.
  intros accounts. split.
  - apply calc_resolve_in, load_tb_accounts_nonempty.
  - intros x rest -> Hx Hin. cbn [CalculatedTelemetry._resolve_account].
    destruct (String.eqb x "") eqn:E.
    { apply String.eqb_eq in E. subst x. exfalso. apply Hx. reflexivity. }
    apply String.eqb_neq in Hx. rewrite Hx, In_mem_key by exact Hin. reflexivity.
Qed.

(** After [AlarmIn.unify_pack], [check_alarm]'s ["Missing 'pack_raw'"] check
    fails exactly when none of [pack_raw], [pack_out], [raw], [pack] and the
    [payload] entries of these names is truthy; a truthy [pack_raw] is kept. *)
Theorem unify_pack_missing_iff (a : alarm_in) :
  (truthy (unify_pack a) = true <->
     truthy (opt_str (ai_pack_raw a)) = true \/ truthy (opt_str (ai_pack_out a)) = true \/
     truthy (opt_str (ai_raw a)) = true \/ truthy (opt_str (ai_pack a)) = true \/
     exists p k, ai_payload a = Some p /\ In k ["pack_raw"; "pack_out"; "raw"; "pack"] /\
                 truthy (payload_get p k) = true) /\
  (truthy (opt_str (ai_pack_raw a)) = true -> unify_pack a = opt_str (ai_pack_raw a)).
Proof.
  split; [|intros H; unfold unify_pack; rewrite H; reflexivity].
  unfold unify_pack.
  destruct (truthy (opt_str (ai_pack_raw a))) eqn:E1; [split; intros _; [tauto|exact E1]|].
  destruct (truthy (opt_str (ai_pack_out a))) eqn:E2; [split; intros _; [tauto|exact E2]|].
  destruct (truthy (opt_str (ai_raw a))) eqn:E3; [split; intros _; [tauto|exact E3]|].
  destruct (truthy (opt_str (ai_pack a))) eqn:E4; [split; intros _; [tauto|exact E4]|].
  destruct (ai_payload a) as [p|] eqn:Ep.
  - unfold py_or.
    destruct (truthy (payload_get p "pack_raw")) eqn:F1.
    { split; intros _; [right; right; right; right; exists p, "pack_raw"; simpl; tauto|exact F1]. }
    destruct (truthy (payload_get p "pack_out")) eqn:F2.
    { split; intros _; [right; right; right; right; exists p, "pack_out"; simpl; tauto|exact F2]. }
    destruct (truthy (payload_get p "raw")) eqn:F3.
    { split; intros _; [right; right; right; right; exists p, "raw"; simpl; tauto|exact F3]. }
    split.
    + intros F4. right; right; right; right. exists p, "pack". simpl. tauto.
    + intros [H|[H|[H|[H|(p' & k & Hp & Hk & Ht)]]]]; try discriminate.
      injection Hp as <-. simpl in Hk.
      destruct Hk as [<-|[<-|[<-|[<-|[]]]]]; congruence.
  - split; [rewrite E1; discriminate|].
    intros [H|[H|[H|[H|(p' & k & Hp & Hk & Ht)]]]]; discriminate.
Qed.

(** A device id found once is served from the cache afterwards, whatever the
    server answers; a failed lookup is not cached, so the next call asks the
    server again. *)
Theorem device_id_cache_success_sticky (cache : gmap string string)
  (device_name account_id : string) (lookup1 lookup2 : option string) :
  let r := _get_device_id cache device_name account_id lookup1 in
  (forall id, r.2 = Some id -> _get_device_id r.1 device_name account_id lookup2 = (r.1, Some id)) /\
  (r.2 = None -> r.1 = cache /\ (_get_device_id r.1 device_name account_id lookup2).2 = lookup2).
Proof.
  intros r. subst r. unfold _get_device_id.
  destruct (cache !! (account_id ++ ":" ++ device_name)) as [id0|] eqn:E.
  - cbn [fst snd]. split; [|discriminate].
    intros id Hid. injection Hid as <-. rewrite E. reflexivity.
  - destruct lookup1 as [id1|]; cbn [fst snd]; split.
    + intros id Hid. injection Hid as <-. rewrite lookup_insert_eq. reflexivity.
    + discriminate.
    + discriminate.
    + intros _. split; [reflexivity|]. rewrite E. destruct lookup2; reflexivity.
Qed.

Lemma Qltb_false (a b : Q) : Qltb a b = false <-> (b <= a)%Q.
Proof.
  unfold Qltb. rewrite negb_false_iff. split; [apply Qle_bool_imp_le|apply Qle_bool_iff].
Qed.

(** Within [FLOOR_CACHE_TTL_SEC] of a call that filled the cache, a second call
    for the same device and account returns the same metadata and leaves both
    caches as they are, whatever the server would answer; once the entry is
    [300] seconds old, the metadata is computed again from freshly fetched
    attributes (the device id being served from its cache). *)
Theorem floor_meta_cache_ttl (c : meta_caches) (device_name account_id : string)
  (t1 t2 : Q) (lookup1 lookup2 : option string) (fetch1 fetch2 : string -> option (gmap string attrval)) :
  (forall m ts, floor_meta_cache c !! (account_id ++ ":" ++ device_name) = Some (m, ts) ->
     (FLOOR_CACHE_TTL_SEC <= t1 - ts)%Q) ->
  let r1 := _get_floor_meta_cached c device_name account_id t1 lookup1 fetch1 in
  ((t2 - t1 < FLOOR_CACHE_TTL_SEC)%Q ->
     _get_floor_meta_cached r1.1 device_name account_id t2 lookup2 fetch2 = r1) /\
  (forall d, (_get_device_id (device_id_cache c) device_name account_id lookup1).2 = Some d ->
     d <> "" -> (FLOOR_CACHE_TTL_SEC <= t2 - t1)%Q ->
     (_get_floor_meta_cached r1.1 device_name account_id t2 lookup2 fetch2).2
     = _get_floor_meta (fetch2 d)).
Proof.
  intros Hstale r1.
  assert (Hmiss : r1 = (let '(dc, dev_id) := _get_device_id (device_id_cache c) device_name account_id lookup1 in
    let fetched := match dev_id with
                   | Some d => if String.eqb d "" then None else fetch1 d
                   | None => None
                   end in
    let m := _get_floor_meta fetched in
    ({| device_id_cache := dc;
        floor_meta_cache := <[account_id ++ ":" ++ device_name := (m, t1)]> (floor_meta_cache c) |}, m))).
  { subst r1. unfold _get_floor_meta_cached.
    destruct (floor_meta_cache c !! (account_id ++ ":" ++ device_name)) as [[m ts]|] eqn:E; [|reflexivity].
    specialize (Hstale m ts eq_refl).
    replace (Qltb (t1 - ts) FLOOR_CACHE_TTL_SEC) with false; [reflexivity|].
    symmetry. apply Qltb_false. exact Hstale. }
  clearbody r1. subst r1.
  destruct (_get_device_id (device_id_cache c) device_name account_id lookup1) as [dc dev_id] eqn:Edev.
  cbn [fst snd]. split.
  - intros Ht. unfold _get_floor_meta_cached at 1. cbn [floor_meta_cache device_id_cache].
    rewrite lookup_insert_eq.
    replace (Qltb (t2 - t1) FLOOR_CACHE_TTL_SEC) with true; [reflexivity|].
    symmetry. apply Qltb_true. exact Ht.
  - intros d Hd Hne Ht. subst dev_id.
    assert (Hdc : dc !! (account_id ++ ":" ++ device_name) = Some d).
    { unfold _get_device_id in Edev.
      destruct (device_id_cache c !! (account_id ++ ":" ++ device_name)) as [id|] eqn:E.
      - injection Edev as <- <-. exact E.
      - destruct lookup1 as [id|]; inversion Edev; subst. apply lookup_insert_eq. }
    unfold _get_floor_meta_cached. cbn [floor_meta_cache device_id_cache].
    rewrite lookup_insert_eq.
    replace (Qltb (t2 - t1) FLOOR_CACHE_TTL_SEC) with false
      by (symmetry; apply Qltb_false; exact Ht).
    unfold _get_device_id at 1. rewrite Hdc. cbn [snd].
    apply String.eqb_neq in Hne. rewrite Hne. reflexivity.
Qed.

Ltac destruct_check_alarm :=
  unfold check_alarm; cbv zeta;
  let Ed := fresh "Ed" in let Eenv := fresh "Eenv" in let Em := fresh "Em" in
  let Eb := fresh "Eb" in let Ep := fresh "Ep" in let Efm := fresh "Efm" in
  destruct (_derive_motion _ _ _ _) as [?ms' [[?dirc ?status] ?vel]] eqn:Ed;
  destruct (env_alarms _ _) as [?ev_env ?al_env] eqn:Eenv;
  destruct (metric_loop _ _ _ _) as [?st2 [?al_vib|]] eqn:Em;
  [ destruct ((_ =? "M") && bool_decide _) eqn:Eb;
    destruct (_process_door_timers _ _ _ _ _) as [?st3 ?al_door] eqn:Ep;
    destruct (floor_mismatch_block _ _ _ _ _) as [?ev_fm ?al_fm] eqn:Efm
  | ].

Lemma buckets_frame_refl device st : buckets_frame device st st.
Proof. repeat split; auto. Qed.

Lemma buckets_frame_trans device st1 st2 st3 :
  buckets_frame device st1 st2 -> buckets_frame device st2 st3 -> buckets_frame device st1 st3.
Proof.
  intros (A1 & B1 & C1 & D1) (A2 & B2 & C2 & D2).
  repeat split; try congruence. intros d Hd. rewrite D2, D1 by exact Hd. reflexivity.
Qed.

Lemma set_buckets_frame st device metric l :
  buckets_frame device st (set_buckets st device metric l).
Proof.
  repeat split. intros d Hd. unfold set_buckets. cbn [bucket_counts].
  apply lookup_insert_ne. congruence.
Qed.

Lemma bucket_check_frame st device metric v h :
  buckets_frame device st (_bucket_check_and_trigger st device metric v h).1.
Proof.
  unfold _bucket_check_and_trigger.
  destruct (find_match h 0 (get_buckets st device metric)) as [[i b]|];
    [|apply set_buckets_frame].
  destruct (3 <=? _)%Z; [|apply set_buckets_frame].
  destruct (THRESHOLDS metric); apply set_buckets_frame.
Qed.

Lemma bucket_check_some st device metric v h thr :
  THRESHOLDS metric = Some thr ->
  exists a, (_bucket_check_and_trigger st device metric v h).2 = Some a.
Proof.
  intros Ht. unfold _bucket_check_and_trigger.
  destruct (find_match h 0 (get_buckets st device metric)) as [[i b]|]; [|eauto].
  destruct (3 <=? _)%Z; [|eauto]. rewrite Ht. eauto.
Qed.

Lemma metric_loop_frame st device h ms :
  buckets_frame device st (metric_loop st device h ms).1.
Proof.
  revert st. induction ms as [|[m v] r IH]; intros st; [apply buckets_frame_refl|].
  cbn [metric_loop].
  destruct v as [val|]; [|apply IH]. destruct (THRESHOLDS m) as [thr|]; [|apply IH].
  destruct (Qltb thr val); [|apply IH].
  pose proof (bucket_check_frame st device m val h) as Hf.
  destruct (_bucket_check_and_trigger st device m val h) as [st1 [a1|]]; [|exact Hf].
  pose proof (IH st1) as Hr.
  destruct (metric_loop st1 device h r) as [st2 o2]. cbn [fst] in *.
  eapply buckets_frame_trans; eassumption.
Qed.

Lemma metric_loop_some st device h ms :
  exists a, (metric_loop st device h ms).2 = Some a.
Proof.
  revert st. induction ms as [|[m v] r IH]; intros st; [eexists; reflexivity|].
  cbn [metric_loop].
  destruct v as [val|]; [|apply IH]. destruct (THRESHOLDS m) as [thr|] eqn:Ethr; [|apply IH].
  destruct (Qltb thr val); [|apply IH].
  destruct (bucket_check_some st device m val h thr Ethr) as [a Ha].
  destruct (_bucket_check_and_trigger st device m val h) as [st1 o]. cbn [snd] in Ha. subst o.
  destruct (IH st1) as [a2 Ha2].
  destruct (metric_loop st1 device h r) as [st2 o2]. cbn [snd] in *. subst o2.
  eexists. reflexivity.
Qed.

Lemma process_door_timers_frame st device bit now fl :
  let st' := (_process_door_timers st device bit now fl).1 in
  bucket_counts st' = bucket_counts st /\ movement_state st' = movement_state st /\
  (forall d, d <> device ->
     device_door_state st' !! d = device_door_state st !! d /\
     door_open_since st' !! d = door_open_since st !! d).
Proof.
  unfold _process_door_timers.
  assert (Hdds : forall d, d <> device ->
     (match bit with
      | Some b => (b, <[device:=negb (Z.eqb b 0)]> (device_door_state st))
      | None => (if default false (device_door_state st !! device) then 1%Z else 0%Z,
                 device_door_state st)
      end).2 !! d = device_door_state st !! d).
  { intros d Hd. destruct bit; [apply lookup_insert_ne; congruence|reflexivity]. }
  destruct (match bit with
            | Some b => (b, <[device:=negb (Z.eqb b 0)]> (device_door_state st))
            | None => (if default false (device_door_state st !! device) then 1%Z else 0%Z,
                       device_door_state st)
            end) as [b dds].
  cbn [snd] in Hdds.
  destruct (Z.eqb b 1).
  - destruct (door_open_since st !! device) as [t|].
    + destruct (Qle_bool DOOR_OPEN_THRESHOLD_SEC (now - t)); cbn;
        (split; [reflexivity|split; [reflexivity|]]); intros d Hd; (split; [apply Hdds, Hd|]);
        [apply lookup_delete_ne; congruence|reflexivity].
    + cbn. split; [reflexivity|split; [reflexivity|]]. intros d Hd. split; [apply Hdds, Hd|].
      apply lookup_insert_ne. congruence.
  - cbn. split; [reflexivity|split; [reflexivity|]]. intros d Hd. split; [apply Hdds, Hd|].
    apply lookup_delete_ne. congruence.
Qed.

Lemma process_door_timers_inv st device bit now fl :
  door_inv st -> door_inv (_process_door_timers st device bit now fl).1.
Proof.
  intros Hinv. unfold _process_door_timers.
  destruct (match bit with
            | Some b => (b, <[device:=negb (Z.eqb b 0)]> (device_door_state st))
            | None => (if default false (device_door_state st !! device) then 1%Z else 0%Z,
                       device_door_state st)
            end) as [b dds] eqn:Eb.
  assert (Hother : forall d, d <> device -> dds !! d = device_door_state st !! d).
  { intros d Hd. destruct bit; injection Eb as <- <-; [apply lookup_insert_ne; congruence|reflexivity]. }
  destruct (Z.eqb b 1) eqn:E1.
  - apply Z.eqb_eq in E1. subst b.
    assert (Hdev : dds !! device = Some true).
    { destruct bit as [b|]; injection Eb as Hb <-.
      - subst b. apply lookup_insert_eq.
      - destruct (device_door_state st !! device) as [[]|]; cbn in Hb; congruence. }
    destruct (door_open_since st !! device) as [t|] eqn:Es.
    + destruct (Qle_bool DOOR_OPEN_THRESHOLD_SEC (now - t)); intros d t' Ht'; cbn in Ht' |- *.
      * destruct (decide (d = device)) as [->|Hd]; [rewrite lookup_delete_eq in Ht'; discriminate|].
        rewrite lookup_delete_ne in Ht' by congruence. rewrite Hother by exact Hd.
        exact (Hinv d t' Ht').
      * destruct (decide (d = device)) as [->|Hd]; [exact Hdev|].
        rewrite Hother by exact Hd. exact (Hinv d t' Ht').
    + intros d t' Ht'. cbn in Ht' |- *.
      destruct (decide (d = device)) as [->|Hd]; [exact Hdev|].
      rewrite lookup_insert_ne in Ht' by congruence. rewrite Hother by exact Hd.
      exact (Hinv d t' Ht').
  - intros d t' Ht'. cbn in Ht' |- *.
    destruct (decide (d = device)) as [->|Hd]; [rewrite lookup_delete_eq in Ht'; discriminate|].
    rewrite lookup_delete_ne in Ht' by congruence. rewrite Hother by exact Hd.
    exact (Hinv d t' Ht').
Qed.

(** [check_alarm] never takes the [KeyError] path of [THRESHOLDS[metric]]:
    every evaluation returns its events and alarms. *)
Theorem check_alarm_never_raises (st : alarm_store) (device pack_raw : string)
  (meta : list Z * list string) (now : Q) :
  exists evs als, (check_alarm st device pack_raw meta now).2 = Some (evs, als).
Proof.
  destruct meta as [bs labels].
  match goal with |- context [check_alarm ?a ?b ?c (bs, labels) ?d] =>
    pose proof (fun st1 => metric_loop_some st1 device (_compute_height (parse_pack_raw pack_raw) bs)
                             (metric_map (parse_pack_raw pack_raw))) as Hsome end.
  destruct_check_alarm; cbn [snd]; eauto.
  exfalso. match type of Em with metric_loop ?s _ _ _ = _ =>
    destruct (Hsome s) as [a Ha]; rewrite Em in Ha; discriminate end.
Qed.

Lemma derive_motion_other ms device h now_ms d :
  d <> device -> (_derive_motion ms device h now_ms).1 !! d = ms !! d.
Proof.
  intros Hd. unfold _derive_motion.
  destruct (prev_h _) as [p|]; [|apply lookup_insert_ne; congruence].
  destruct (if Qltb MOVEMENT_DEADBAND_MM (h - p) then _ else _) as [x y].
  apply lookup_insert_ne. congruence.
Qed.

Lemma check_alarm_fst (st : alarm_store) (device pack_raw : string) (bs : list Z)
  (labels : list string) (now : Q) :
  let parsed := parse_pack_raw pack_raw in
  let h := _compute_height parsed bs in
  let fi := _floor_index h bs in
  let fl := match nth_error labels fi with Some l => l | None => string_of_nat fi end in
  let st1 := {| device_door_state := device_door_state st;
                door_open_since := door_open_since st;
                bucket_counts := bucket_counts st;
                movement_state := (_derive_motion (movement_state st) device h
                                     (py_int (now * 1000))).1 |} in
  (check_alarm st device pack_raw (bs, labels) now).1
  = (_process_door_timers (metric_loop st1 device h (metric_map parsed)).1 device
       (door_to_bit (parsed !! "door_val")) now fl).1.
Proof.
  cbv zeta.
  pose proof (fun st1 => metric_loop_some st1 device (_compute_height (parse_pack_raw pack_raw) bs)
                           (metric_map (parse_pack_raw pack_raw))) as Hsome.
  destruct_check_alarm; cbn [fst]; rewrite ?Ed, ?Em; cbn [fst]; rewrite ?Ep; try reflexivity.
  exfalso. match type of Em with metric_loop ?s _ _ _ = _ =>
    destruct (Hsome s) as [a Ha]; rewrite Em in Ha; discriminate end.
Qed.

(** Whatever the sample, [check_alarm] keeps the invariant that a device with
    a recorded door-open time has an open last door state. *)
Theorem check_alarm_door_inv (st : alarm_store) (device pack_raw : string)
  (meta : list Z * list string) (now : Q) :
  door_inv st -> door_inv (check_alarm st device pack_raw meta now).1.
Proof.
  intros Hinv. destruct meta as [bs labels]. rewrite check_alarm_fst.
  apply process_door_timers_inv.
  match goal with |- door_inv (metric_loop ?s ?dv ?h ?ms).1 =>
    destruct (metric_loop_frame s dv h ms) as (A & B & _) end.
  unfold door_inv. intros d t Ht. rewrite A. rewrite B in Ht. exact (Hinv d t Ht).
Qed.

(** [check_alarm] for [device] leaves the door state, the door-open time,
    the vibration buckets and the motion state of every other device as
    they were. *)
Theorem check_alarm_device_isolation (st : alarm_store) (device pack_raw : string)
  (meta : list Z * list string) (now : Q) (d : string) :
  d <> device ->
  let st' := (check_alarm st device pack_raw meta now).1 in
  device_door_state st' !! d = device_door_state st !! d /\
  door_open_since st' !! d = door_open_since st !! d /\
  bucket_counts st' !! d = bucket_counts st !! d /\
  movement_state st' !! d = movement_state st !! d.
Proof.
  intros Hd st'. subst st'. destruct meta as [bs labels]. rewrite check_alarm_fst.
  match goal with |- context [(_process_door_timers (metric_loop ?s ?dv ?h ?ms).1 ?a ?b ?c ?e).1] =>
    destruct (metric_loop_frame s dv h ms) as (A & B & C & D);
    destruct (process_door_timers_frame (metric_loop s dv h ms).1 a b c e) as (P1 & P2 & P3) end.
  destruct (P3 d Hd) as [Q1 Q2].
  rewrite Q1, Q2, P1, P2, A, B, C, (D d Hd). cbn [device_door_state door_open_since bucket_counts movement_state].
  split; [reflexivity|split; [reflexivity|split; [reflexivity|]]].
  apply derive_motion_other. exact Hd.
Qed.

Lemma check_alarm_events (st : alarm_store) (device pack_raw : string) (bs : list Z)
  (labels : list string) (now : Q) evs als :
  (check_alarm st device pack_raw (bs, labels) now).2 = Some (evs, als) ->
  let parsed := parse_pack_raw pack_raw in
  let fi := _floor_index (_compute_height parsed bs) bs in
  let fl := match nth_error labels fi with Some l => l | None => string_of_nat fi end in
  exists rest, evs = ((env_alarms fl (env_pairs parsed)).1 ++ rest)%list /\
    Forall (fun e => ev_code e = "DOOR_OPEN_WHILE_MOVING" \/ ev_code e = "FLOOR_MISMATCH") rest.
Proof.
  destruct_check_alarm; cbn [snd]; intros H; try discriminate.
  - injection H as <- <-. rewrite ?Eenv. cbn [fst].
    eexists; split; [reflexivity|]. constructor; [left; reflexivity|].
    unfold floor_mismatch_block in Efm.
    destruct (door_to_bit _) as [[|[]|]|]; try (injection Efm as <- <-; constructor).
    destruct (_floor_mismatch _ _ _) as [[[] dv] c]; injection Efm as <- <-;
      repeat constructor; right; reflexivity.
  - injection H as <- <-. rewrite ?Eenv. cbn [fst].
    eexists; split; [reflexivity|]. cbn [app].
    unfold floor_mismatch_block in Efm.
    destruct (door_to_bit _) as [[|[]|]|]; try (injection Efm as <- <-; constructor).
    destruct (_floor_mismatch _ _ _) as [[[] dv] c]; injection Efm as <- <-;
      repeat constructor; right; reflexivity.
Qed.

Lemma list_filter_app {A} (f : A -> bool) (l1 l2 : list A) :
  List.filter f (l1 ++ l2) = (List.filter f l1 ++ List.filter f l2)%list.
Proof. induction l1 as [|x l1 IH]; [reflexivity|]. cbn. destruct (f x); cbn; rewrite IH; reflexivity. Qed.

(** The [TEMPERATURE_HIGH] and [HUMIDITY_HIGH] events of [check_alarm] are
    exactly one per reading above 50: the value read from [temperature]
    (falling back to [mpu_temp_val]), resp. [humidity] (falling back to
    [humidity_val]), carried in the event. *)
Theorem check_alarm_env_events (st : alarm_store) (device pack_raw : string)
  (meta : list Z * list string) (now : Q) evs als :
  (check_alarm st device pack_raw meta now).2 = Some (evs, als) ->
  let parsed := parse_pack_raw pack_raw in
  let expected code v :=
    match v with Some x => if Qltb 50 x then [env_event code x] else [] | None => [] end in
  List.filter (fun e => String.eqb (ev_code e) "TEMPERATURE_HIGH") evs
    = expected "TEMPERATURE_HIGH"
        (get_float parsed "temperature" (get_float parsed "mpu_temp_val" None)) /\
  List.filter (fun e => String.eqb (ev_code e) "HUMIDITY_HIGH") evs
    = expected "HUMIDITY_HIGH"
        (get_float parsed "humidity" (get_float parsed "humidity_val" None)).
Proof.
  destruct meta as [bs labels]. intros H.
  destruct (check_alarm_events st device pack_raw bs labels now evs als H) as (rest & -> & Hr).
  cbv zeta.
  assert (Hnil : forall c, c <> "DOOR_OPEN_WHILE_MOVING" -> c <> "FLOOR_MISMATCH" ->
            List.filter (fun e => String.eqb (ev_code e) c) rest = []).
  { clear H. intros c H1 H2. induction Hr as [|e r He Hr IH]; [reflexivity|]. cbn.
    destruct (String.eqb_spec (ev_code e) c) as [E|E]; [|exact IH].
    destruct He as [He|He]; rewrite He in E; subst c; contradiction. }
  rewrite !list_filter_app, !Hnil by discriminate. rewrite !app_nil_r.
  clear H Hr Hnil. unfold env_pairs.
  generalize (match nth_error labels (_floor_index (_compute_height (parse_pack_raw pack_raw) bs) bs)
              with Some l => l
              | None => string_of_nat (_floor_index (_compute_height (parse_pack_raw pack_raw) bs) bs)
              end) as fl.
  generalize (get_float (parse_pack_raw pack_raw) "temperature"
                (get_float (parse_pack_raw pack_raw) "mpu_temp_val" None)) as t.
  generalize (get_float (parse_pack_raw pack_raw) "humidity"
                (get_float (parse_pack_raw pack_raw) "humidity_val" None)) as hm.
  intros [hv|] [tv|] fl; cbn [env_alarms];
    change (THRESHOLDS "temperature") with (Some 50%Q);
    change (THRESHOLDS "humidity") with (Some 50%Q); cbv beta iota;
    repeat match goal with |- context [Qltb 50 ?x] => destruct (Qltb 50 x) end;
    split; reflexivity.
Qed.

Lemma hinc_count m store_key field delta k f :
  lc_count (_hinc m store_key field delta) k f
  = (lc_count m k f + if bool_decide (k = store_key /\ f = field) then delta else 0)%Z.
Proof.
  unfold lc_count, _hinc.
  destruct (decide (k = store_key)) as [->|Hk].
  - rewrite lookup_insert_eq. cbn [from_option id].
    destruct (decide (f = field)) as [->|Hf].
    + rewrite lookup_insert_eq, bool_decide_true by tauto. reflexivity.
    + rewrite lookup_insert_ne by congruence.
      rewrite bool_decide_false by tauto. lia.
  - rewrite lookup_insert_ne by congruence. rewrite bool_decide_false by tauto. lia.
Qed.

Lemma str_app_cancel (s a b : string) : s ++ a = s ++ b -> a = b.
Proof.
  induction s as [|x s IH]; [tauto|]. rewrite !str_app_cons. intros H.
  injection H as H. exact (IH H).
Qed.

Lemma door_key_ne_idle_key (date_str d1 d2 : string) :
  _door_key date_str d1 <> _idle_key date_str d2.
Proof.
  unfold _door_key, _idle_key. intros H.
  apply str_app_cancel, str_app_cancel in H.
  change (":" ++ d1 ++ ":door") with (String ":" (d1 ++ ":door")) in H.
  change (":" ++ d2 ++ ":idle_ms") with (String ":" (d2 ++ ":idle_ms")) in H.
  injection H as H.
  apply (f_equal (fun s => rev (list_ascii_of_string s))) in H.
  rewrite !list_ascii_of_string_app, !rev_app_distr in H. discriminate H.
Qed.

(** One accepted sample of [process_pack_out_sample] changes the counters by
    exactly: +1 on the door counter of the bucket floor when the previous
    stored door was closed (a non-empty value other than ["1"]) and the sample
    reports it open, and +[ts_ms - last_ts] on the idle counter of the bucket
    floor when there was no movement and a previous timestamp exists; every
    other counter is unchanged. *)
Theorem process_sample_counter_delta (LC_MOVEMENT_THRESHOLD_MM : Q)
  (_local_date_str : Z -> string)
  (_parse_pack_out : string -> option string * option Q * option bool)
  (w : lc_world) (device_id : string) (ts_ms : Z) (pack_out_str : string)
  (fl : option string) (h : option Q) (dopen : option bool) (k f : string) :
  _parse_pack_out pack_out_str = (fl, h, dopen) ->
  (fl, h, dopen) <> (None, None, None) ->
  let state := state_inmem w !! device_id in
  let last_ts := match state with Some s => st_ts s | None => 0%Z end in
  (last_ts < ts_ms)%Z ->
  let last_h := match state with Some s => st_h s | None => None end in
  let fb := str_or fl (str_or (option_map st_floor state) "UNKNOWN") in
  let date_str := _local_date_str ts_ms in
  let rising := match state with
                | Some s => negb (String.eqb (st_door s) "") && negb (String.eqb (st_door s) "1")
                | None => false
                end && bool_decide (dopen = Some true) in
  let idle := negb (_movement last_h h LC_MOVEMENT_THRESHOLD_MM) && (0 <? last_ts)%Z in
  let w' := process_pack_out_sample true LC_MOVEMENT_THRESHOLD_MM _local_date_str
              _parse_pack_out w device_id ts_ms pack_out_str in
  lc_count (inmem w') k f
  = (lc_count (inmem w) k f
     + (if rising && bool_decide (k = _door_key date_str device_id /\ f = fb) then 1 else 0)
     + (if idle && bool_decide (k = _idle_key date_str device_id /\ f = fb)
        then ts_ms - last_ts else 0))%Z.
Proof.
  intros Hp Hne state last_ts Hlt last_h fb date_str rising idle w'.
  subst w'. unfold process_pack_out_sample. cbn [negb]. rewrite Hp.
  assert (Hb : (ts_ms <=? last_ts)%Z = false) by (apply Z.leb_gt; exact Hlt).
  assert (Hdt : (0 <? ts_ms - last_ts)%Z = true) by (apply Z.ltb_lt; lia).
  assert (Hkk : bool_decide (k = _door_key date_str device_id /\ f = fb) = true ->
                          bool_decide (k = _idle_key date_str device_id /\ f = fb) = false).
  { intros H1. apply bool_decide_eq_true in H1 as [-> _].
    apply bool_decide_false. intros [H _]. exact (door_key_ne_idle_key _ _ _ H). }
  assert (Hrise : (bool_decide
                     (match option_map st_door state with
                      | Some d => if String.eqb d "" then None else Some (String.eqb d "1")
                      | None => None end = Some false) && bool_decide (dopen = Some true))
                  = rising).
  { subst rising. destruct state as [s|]; cbn [option_map]; [|reflexivity].
    destruct (String.eqb (st_door s) ""); [reflexivity|].
    destruct (String.eqb (st_door s) "1"); reflexivity. }
  assert (Hgo : forall (r : lc_world),
    (match fl, h, dopen with None, None, None => w | _, _, _ => r end) = r).
  { intros r. destruct fl, h, dopen; try reflexivity. exfalso; apply Hne; reflexivity. }
  rewrite Hgo. clear Hgo. fold state. fold last_ts. rewrite Hb. fold date_str. fold last_h.
  cbn [inmem]. fold fb. rewrite Hrise, Hdt. fold idle.
  unfold idle. destruct (negb _) ; cbn [andb];
  [destruct (0 <? last_ts)%Z|]; destruct rising; cbn [andb];
  rewrite ?hinc_count.
  all: try (destruct (bool_decide (k = _door_key date_str device_id /\ f = fb)) eqn:E1;
            [rewrite (Hkk E1)|]; lia).
  all: lia.
Qed.

Lemma str_app_cancel_r (a b s : string) : a ++ s = b ++ s -> a = b.
Proof.
  intros H. apply (f_equal (fun x => rev (list_ascii_of_string x))) in H.
  rewrite !list_ascii_of_string_app, !rev_app_distr in H.
  apply app_inv_head in H. apply (f_equal (@rev ascii)) in H. rewrite !rev_involutive in H.
  rewrite <- (string_of_list_ascii_of_string a), <- (string_of_list_ascii_of_string b), H.
  reflexivity.
Qed.

Lemma door_key_inj (date_str d1 d2 : string) :
  _door_key date_str d1 = _door_key date_str d2 -> d1 = d2.
Proof.
  unfold _door_key. intros H. apply str_app_cancel, str_app_cancel, str_app_cancel in H.
  exact (str_app_cancel_r _ _ _ H).
Qed.

Lemma idle_key_inj (date_str d1 d2 : string) :
  _idle_key date_str d1 = _idle_key date_str d2 -> d1 = d2.
Proof.
  unfold _idle_key. intros H. apply str_app_cancel, str_app_cancel, str_app_cancel in H.
  exact (str_app_cancel_r _ _ _ H).
Qed.

Lemma prefix_app (p s : string) : String.prefix p (p ++ s) = true.
Proof.
  induction p as [|x p IH]; [destruct s; reflexivity|].
  rewrite str_app_cons. cbn. destruct (ascii_dec x x); [exact IH|congruence].
Qed.

Lemma string_of_list_ascii_app (l1 l2 : list ascii) :
  string_of_list_ascii (l1 ++ l2) = string_of_list_ascii l1 ++ string_of_list_ascii l2.
Proof. induction l1 as [|x l1 IH]; [reflexivity|]. cbn. rewrite IH. reflexivity. Qed.

Lemma endswith_app (s suf : string) : py_endswith (s ++ suf) suf = true.
Proof.
  unfold py_endswith. rewrite list_ascii_of_string_app, rev_app_distr, string_of_list_ascii_app.
  apply prefix_app.
Qed.

Lemma door_key_split (date_str device_id : string) :
  no_char ":" date_str -> no_char ":" device_id ->
  split_on ":" (_door_key date_str device_id) = ["lc"; date_str; device_id; "door"].
Proof.
  intros Hd Hv.
  change (_door_key date_str device_id)
    with (String.concat (String ":" "") ["lc"; date_str; device_id; "door"]).
  apply split_on_concat; [discriminate|].
  repeat constructor; try assumption; apply no_char_of_forallb; reflexivity.
Qed.

Lemma idle_key_split (date_str device_id : string) :
  no_char ":" date_str -> no_char ":" device_id ->
  split_on ":" (_idle_key date_str device_id) = ["lc"; date_str; device_id; "idle_ms"].
Proof.
  intros Hd Hv.
  change (_idle_key date_str device_id)
    with (String.concat (String ":" "") ["lc"; date_str; device_id; "idle_ms"]).
  apply split_on_concat; [discriminate|].
  repeat constructor; try assumption; apply no_char_of_forallb; reflexivity.
Qed.

Lemma door_key_candidate (date_str device_id : string) :
  no_char ":" date_str -> no_char ":" device_id ->
  flush_candidate date_str (_door_key date_str device_id) = Some device_id.
Proof.
  intros Hd Hv. unfold flush_candidate, py_startswith.
  assert (Hp : _door_key date_str device_id = ("lc:" ++ date_str ++ ":") ++ device_id ++ ":door").
  { unfold _door_key. rewrite <- !str_app_assoc. reflexivity. }
  rewrite Hp at 1. rewrite prefix_app.
  assert (He : _door_key date_str device_id = ("lc:" ++ date_str ++ ":" ++ device_id) ++ ":door").
  { unfold _door_key. rewrite <- !str_app_assoc. reflexivity. }
  assert (Hend : py_endswith (_door_key date_str device_id) ":door" = true)
    by (rewrite He; apply endswith_app).
  rewrite Hend. cbn [andb orb].
  rewrite door_key_split by assumption. reflexivity.
Qed.

Lemma idle_key_candidate (date_str device_id : string) :
  no_char ":" date_str -> no_char ":" device_id ->
  flush_candidate date_str (_idle_key date_str device_id) = Some device_id.
Proof.
  intros Hd Hv. unfold flush_candidate, py_startswith.
  assert (Hp : _idle_key date_str device_id = ("lc:" ++ date_str ++ ":") ++ device_id ++ ":idle_ms").
  { unfold _idle_key. rewrite <- !str_app_assoc. reflexivity. }
  rewrite Hp at 1. rewrite prefix_app.
  assert (He : _idle_key date_str device_id = ("lc:" ++ date_str ++ ":" ++ device_id) ++ ":idle_ms").
  { unfold _idle_key. rewrite <- !str_app_assoc. reflexivity. }
  assert (Hend : py_endswith (_idle_key date_str device_id) ":idle_ms" = true)
    by (rewrite He; apply endswith_app).
  rewrite Hend, orb_true_r. cbn [andb].
  rewrite idle_key_split by assumption. reflexivity.
Qed.

Lemma flush_loop_spec (post_ok : string -> gmap string Z -> gmap string Z -> bool)
  (date_str : string) (m0 : gmap string (gmap string Z)) (l : list string) :
  NoDup l ->
  let ok d := post_ok d (_hgetall m0 (_door_key date_str d)) (_hgetall m0 (_idle_key date_str d)) in
  forall m f,
  (forall d, d ∈ l -> m !! _door_key date_str d = m0 !! _door_key date_str d /\
                      m !! _idle_key date_str d = m0 !! _idle_key date_str d) ->
  let r := flush_loop post_ok date_str l m f in
  r.2 = (f + Z.of_nat (List.length (List.filter ok l)))%Z /\
  (forall d, d ∈ l -> ok d = true ->
     r.1 !! _door_key date_str d = None /\ r.1 !! _idle_key date_str d = None) /\
  (forall k, (forall d, d ∈ l -> ok d = true -> k <> _door_key date_str d /\ k <> _idle_key date_str d) ->
     r.1 !! k = m !! k).
Proof.
  intros Hnd ok. induction Hnd as [|d l Hnin Hnd IH]; intros m f Hm r.
  { subst r. cbn. split; [lia|]. split; [intros d Hd; inversion Hd|]. reflexivity. }
  subst r. cbn [flush_loop].
  destruct (Hm d ltac:(apply elem_of_cons; left; reflexivity)) as [Hd1 Hd2].
  assert (Hok : post_ok d (_hgetall m (_door_key date_str d)) (_hgetall m (_idle_key date_str d))
                = ok d) by (unfold _hgetall; rewrite Hd1, Hd2; reflexivity).
  rewrite Hok. cbn [List.filter].
  assert (Hdist : forall d', d' ∈ l ->
            _door_key date_str d' <> _door_key date_str d /\ _door_key date_str d' <> _idle_key date_str d /\
            _idle_key date_str d' <> _door_key date_str d /\ _idle_key date_str d' <> _idle_key date_str d).
  { intros d' Hd'. assert (Hne : d' <> d) by (intros ->; contradiction).
    split; [intros H; apply Hne, (door_key_inj _ _ _ H)|].
    split; [apply door_key_ne_idle_key|].
    split; [intros H; symmetry in H; exact (door_key_ne_idle_key _ _ _ H)|].
    intros H; apply Hne, (idle_key_inj _ _ _ H). }
  destruct (ok d) eqn:Eok.
  - set (m' := delete (_idle_key date_str d) (delete (_door_key date_str d) m)).
    assert (Hm' : forall d', d' ∈ l -> m' !! _door_key date_str d' = m0 !! _door_key date_str d' /\
                                     m' !! _idle_key date_str d' = m0 !! _idle_key date_str d').
    { intros d' Hd'. destruct (Hdist d' Hd') as (A & B & C & D). destruct (Hm d' ltac:(apply elem_of_cons; right; exact Hd')) as [E F].
      subst m'. rewrite !lookup_delete_ne by congruence. tauto. }
    destruct (IH m' (f + 1)%Z Hm') as (H1 & H2 & H3).
    split; [rewrite H1; cbn [List.length]; lia|]. split.
    + intros d' Hd' Hok'. apply elem_of_cons in Hd' as [->|Hd']; [|exact (H2 d' Hd' Hok')].
      rewrite !H3.
      * subst m'. rewrite lookup_delete_eq. split; [|reflexivity].
        rewrite lookup_delete_ne by (intros Hc; symmetry in Hc; exact (door_key_ne_idle_key _ _ _ Hc)). apply lookup_delete_eq.
      * intros d'' Hd'' _. destruct (Hdist d'' Hd'') as (A & B & C & D). split; congruence.
      * intros d'' Hd'' _. destruct (Hdist d'' Hd'') as (A & B & C & D). split; congruence.
    + intros k Hk. rewrite H3.
      * destruct (Hk d ltac:(apply elem_of_cons; left; reflexivity) Eok) as [K1 K2]. subst m'.
        rewrite !lookup_delete_ne by congruence. reflexivity.
      * intros d'' Hd'' Hok''. exact (Hk d'' ltac:(apply elem_of_cons; right; exact Hd'') Hok'').
  - assert (Hml : forall d', d' ∈ l -> m !! _door_key date_str d' = m0 !! _door_key date_str d' /\
                                     m !! _idle_key date_str d' = m0 !! _idle_key date_str d')
      by (intros d' Hd'; exact (Hm d' ltac:(apply elem_of_cons; right; exact Hd'))).
    destruct (IH m f Hml) as (H1 & H2 & H3).
    split; [exact H1|]. split.
    + intros d' Hd' Hok'. apply elem_of_cons in Hd' as [->|Hd']; [congruence|exact (H2 d' Hd' Hok')].
    + intros k Hk. apply H3. intros d'' Hd'' Hok''. exact (Hk d'' ltac:(apply elem_of_cons; right; exact Hd'') Hok'').
Qed.

(** [flush_day_to_tb] removes the door and idle counters of exactly the
    candidate devices whose save succeeded and returns their number; every
    other counter is left as it was. Every device (without [:] in its id, for
    a date without [:]) that has a door or an idle counter that day is a
    candidate. *)
Theorem flush_day_to_tb_effect (post_ok : string -> gmap string Z -> gmap string Z -> bool)
  (m : gmap string (gmap string Z)) (date_str : string) :
  let c := flush_candidates m date_str in
  let ok d := post_ok d (_hgetall m (_door_key date_str d)) (_hgetall m (_idle_key date_str d)) in
  let r := flush_day_to_tb post_ok m date_str in
  r.2 = Z.of_nat (List.length (List.filter ok (elements c))) /\
  (forall d, d ∈ c -> ok d = true ->
     r.1 !! _door_key date_str d = None /\ r.1 !! _idle_key date_str d = None) /\
  (forall k, (forall d, d ∈ c -> ok d = true -> k <> _door_key date_str d /\ k <> _idle_key date_str d) ->
     r.1 !! k = m !! k) /\
  (forall d, no_char ":" date_str -> no_char ":" d ->
     is_Some (m !! _door_key date_str d) \/ is_Some (m !! _idle_key date_str d) -> d ∈ c).
Proof.
  intros c ok r.
  assert (Hloop : r = flush_loop post_ok date_str (elements c) m 0).
  { subst r. unfold flush_day_to_tb. fold c. destruct (decide (c = ∅)) as [->|]; [|reflexivity].
    rewrite elements_empty. reflexivity. }
  destruct (flush_loop_spec post_ok date_str m (elements c) (NoDup_elements c) m 0%Z
              ltac:(intros; split; reflexivity)) as (H1 & H2 & H3).
  fold ok in H1, H2, H3. rewrite <- Hloop in H1, H2, H3.
  split; [rewrite H1; lia|]. split.
  { intros d Hd Hok. apply H2; [apply elem_of_elements; exact Hd|exact Hok]. }
  split.
  { intros k Hk. apply H3. intros d Hd Hok. apply Hk; [apply elem_of_elements; exact Hd|exact Hok]. }
  intros d Hdate Hdev Hin. subst c. unfold flush_candidates.
  apply elem_of_list_to_set. apply list_elem_of_omap.
  destruct Hin as [[v Hv]|[v Hv]].
  - exists (_door_key date_str d). split; [|apply door_key_candidate; assumption].
    apply list_elem_of_fmap. exists (_door_key date_str d, v). split; [reflexivity|].
    apply elem_of_map_to_list. exact Hv.
  - exists (_idle_key date_str d). split; [|apply idle_key_candidate; assumption].
    apply list_elem_of_fmap. exists (_idle_key date_str d, v). split; [reflexivity|].
    apply elem_of_map_to_list. exact Hv.
Qed.

Lemma floor_index_loop_bound (h : Q) (i j : nat) (bs : list Z) :
  floor_index_loop h i bs = Some j -> (j + 2 <= i + List.length bs)%nat.
Proof.
  revert i. induction bs as [|b0 r IH]; intros i H; [discriminate|].
  destruct r as [|b1 r']; [discriminate|].
  cbn [floor_index_loop] in H.
  destruct (Qle_bool _ _ && Qltb _ _).
  - injection H as <-. cbn [List.length]. lia.
  - apply IH in H. cbn [List.length] in *. lia.
Qed.

Lemma floor_index_lt (h : Q) (bs : list Z) :
  bs <> [] -> (_floor_index h bs < List.length bs)%nat.
Proof.
  intros Hne. unfold _floor_index.
  destruct (Nat.ltb (List.length bs) 2) eqn:E.
  - destruct bs; [congruence|]. cbn. lia.
  - apply Nat.ltb_ge in E.
    destruct (floor_index_loop h 0 bs) as [j|] eqn:Ej; [|lia].
    apply floor_index_loop_bound in Ej. lia.
Qed.

(** The resolved floor meta always has boundaries and never more labels
    than floors; without configured labels the labels are ["0"], ["1"], ...
    one per floor. With these boundaries, the floor index of any height is a
    valid boundary index, so the floor-mismatch check always compares the
    height with an actual floor centre (its out-of-range branch is never
    taken). *)
Theorem floor_meta_shape (fetched : option (gmap string attrval)) (h : Q) :
  let bs := (_get_floor_meta fetched).1.1 in
  let ls := (_get_floor_meta fetched).1.2 in
  bs <> [] /\
  (List.length ls <= List.length bs - 1)%nat /\
  ((floor_meta_attrs fetched).1.2 = [] -> ls = map string_of_nat (seq 0 (List.length bs - 1))) /\
  exists c, nth_error bs (_floor_index h bs) = Some c /\
    _floor_mismatch h (_floor_index h bs) bs
    = (Qltb TOLERANCE_MM (Qabs (h - inject_Z c)), (h - inject_Z c)%Q, inject_Z c).
Proof.
  intros bs ls.
  assert (Hne : bs <> []).
  { subst bs. unfold _get_floor_meta.
    destruct (floor_meta_attrs fetched) as [[bs0 ls0] hf]. cbn [fst].
    destruct bs0; discriminate. }
  split; [exact Hne|]. split.
  { subst bs ls. unfold _get_floor_meta.
    destruct (floor_meta_attrs fetched) as [[bs0 ls0] hf]. cbn [fst snd].
    rewrite length_take. lia. }
  split.
  { subst bs ls. unfold _get_floor_meta.
    destruct (floor_meta_attrs fetched) as [[bs0 ls0] hf]. cbn [fst snd]. intros ->.
    rewrite take_ge; [reflexivity|]. rewrite length_map, length_seq. lia. }
  pose proof (floor_index_lt h bs Hne) as Hlt.
  destruct (nth_error bs (_floor_index h bs)) as [c|] eqn:Ec.
  - exists c. split; [reflexivity|]. unfold _floor_mismatch. rewrite Ec. reflexivity.
  - apply nth_error_None in Ec. lia.
Qed.

(** ** Instances of the further properties *)


Lemma door_to_bit_binary_numeric_witness :
  door_to_bit (Some (PStr "OPEN")) = Some 1%Z /\ (1 = 0 \/ 1 = 1)%Z.
Proof.
  assert (H : door_to_bit (Some (PStr "OPEN")) = Some 1%Z) by (vm_compute; reflexivity).
  split; [exact H|]. exact (proj1 (door_to_bit_binary_numeric (Some (PStr "OPEN")) 1 0) H).
Defined.

Lemma pack_calc_round_trip_witness :
  no_char "|" "3" /\ no_char "|" "U" /\ no_char "|" "M" /\
  ts_millis (parse_pack_raw (_build_pack_calc 100 3025 1 "3" "U" "M" (Some 1%Z))) None
  = Some 100000%Z.
Proof.
  assert (H1 : no_char "|" "3") by (apply no_char_of_forallb; reflexivity).
  assert (H2 : no_char "|" "U") by (apply no_char_of_forallb; reflexivity).
  assert (H3 : no_char "|" "M") by (apply no_char_of_forallb; reflexivity).
  split; [exact H1|]. split; [exact H2|]. split; [exact H3|].
  pose proof (pack_calc_round_trip 100 3025 1 "3" "U" "M" (Some 1%Z) H1 H2 H3) as Hp.
  cbv zeta in Hp. destruct Hp as (_ & _ & _ & _ & _ & _ & _ & _ & E). exact E.
Defined.

Lemma pack_out_round_trip_witness :
  no_char "|" "3" /\ no_char "|" "U" /\ no_char "|" "M" /\
  _parse_pack_out (fun _ => None)
    (_build_pack_out (fun _ => "0.0") (_build_pack_calc 100 3025 1 "3" "U" "M" (Some 1%Z))
       (parse_pack_raw "door_val=1") 3025 "3" (Some 1%Z))
  = (Some "3", Some (inject_Z (round_half_even 3025)), Some true).
Proof.
  assert (H1 : no_char "|" "3") by (apply no_char_of_forallb; reflexivity).
  assert (H2 : no_char "|" "U") by (apply no_char_of_forallb; reflexivity).
  assert (H3 : no_char "|" "M") by (apply no_char_of_forallb; reflexivity).
  assert (Hf : forall q : Q, no_char "|" ((fun _ => "0.0") q))
    by (intros q; apply no_char_of_forallb; reflexivity).
  assert (Hj : forall (v : string) (r : option string * option Q * option bool),
             (fun _ : string => @None (option string * option Q * option bool)) v = Some r ->
             json_may_be_object v = true) by (intros v r H; discriminate H).
  split; [exact H1|]. split; [exact H2|]. split; [exact H3|].
  exact (pack_out_round_trip (fun _ => "0.0") Hf (fun _ => None) Hj "door_val=1" 100 3025 1
           "3" "U" "M" (Some 1%Z) H1 H2 H3).
Defined.

Lemma resolve_account_configured_witness :
  In "default" (map fst (_load_tb_accounts (fun _ => None) "" "http://tb")) /\
  _resolve_account (_load_tb_accounts (fun _ => None) "" "http://tb") (Some "default")
  = Some "default".
Proof.
  assert (H : In "default" (map fst (_load_tb_accounts (fun _ => None) "" "http://tb")))
    by (vm_compute; left; reflexivity).
  split; [exact H|].
  exact (proj2 (resolve_account_configured (fun _ => None) "" "http://tb" (Some "default"))
           "default" eq_refl ltac:(discriminate) H).
Defined.

Lemma calc_resolve_account_configured_witness :
  In (strip " default ") (map fst (_load_tb_accounts (fun _ => None) "" "http://tb")) /\
  CalculatedTelemetry._resolve_account (_load_tb_accounts (fun _ => None) "" "http://tb")
    [Some " default "; None] = Some "default".
Proof.
  assert (H : In (strip " default ") (map fst (_load_tb_accounts (fun _ => None) "" "http://tb")))
    by (vm_compute; left; reflexivity).
  assert (Hn : strip " default " <> "") by (vm_compute; discriminate).
  split; [exact H|].
  exact (proj2 (calc_resolve_account_configured (fun _ => None) "" "http://tb"
                  [Some " default "; None]) " default " [None] eq_refl Hn H).
Defined.

Lemma unify_pack_missing_iff_witness :
  truthy (unify_pack unify_pack_sample) = true.
Proof.
  apply (proj2 (proj1 (unify_pack_missing_iff unify_pack_sample))).
  right; left. reflexivity.
Defined.

Lemma device_id_cache_success_sticky_witness :
  (_get_device_id ∅ "lift1" "default" (Some "id1")).2 = Some "id1" /\
  _get_device_id (_get_device_id ∅ "lift1" "default" (Some "id1")).1 "lift1" "default" None
  = ((_get_device_id ∅ "lift1" "default" (Some "id1")).1, Some "id1").
Proof.
  assert (H : (_get_device_id ∅ "lift1" "default" (Some "id1")).2 = Some "id1") by reflexivity.
  split; [exact H|].
  exact (proj1 (device_id_cache_success_sticky ∅ "lift1" "default" (Some "id1") None) "id1" H).
Defined.

Lemma floor_meta_cache_ttl_witness :
  (10 - 0 < FLOOR_CACHE_TTL_SEC)%Q /\
  _get_floor_meta_cached
    (_get_floor_meta_cached empty_caches "lift1" "default" 0 (Some "id1") (fun _ => None)).1
    "lift1" "default" 10 None (fun _ => None)
  = _get_floor_meta_cached empty_caches "lift1" "default" 0 (Some "id1") (fun _ => None).
Proof.
  assert (Hs : forall m ts, floor_meta_cache empty_caches !! ("default" ++ ":" ++ "lift1")
                            = Some (m, ts) -> (FLOOR_CACHE_TTL_SEC <= 0 - ts)%Q)
    by (intros m ts H; discriminate H).
  assert (Ht : (10 - 0 < FLOOR_CACHE_TTL_SEC)%Q) by (vm_compute; reflexivity).
  split; [exact Ht|].
  exact (proj1 (floor_meta_cache_ttl empty_caches "lift1" "default" 0 10 (Some "id1") None
                  (fun _ => None) (fun _ => None) Hs) Ht).
Defined.

Lemma check_alarm_door_inv_witness :
  door_inv empty_store /\
  door_inv (check_alarm empty_store "lift1" "h=1000|door_val=1" ([0; 3000]%Z, ["G"; "1"]) 5).1.
Proof.
  assert (H : door_inv empty_store) by (intros d t Ht; discriminate Ht).
  split; [exact H|].
  exact (check_alarm_door_inv empty_store "lift1" "h=1000|door_val=1" ([0; 3000]%Z, ["G"; "1"]) 5 H).
Defined.

Lemma check_alarm_device_isolation_witness :
  "lift2" <> "lift1" /\
  door_open_since (check_alarm empty_store "lift1" "h=1000|door_val=1" ([0; 3000]%Z, []) 5).1
    !! "lift2" = door_open_since empty_store !! "lift2".
Proof.
  assert (H : "lift2" <> "lift1") by discriminate.
  split; [exact H|].
  exact (proj1 (proj2 (check_alarm_device_isolation empty_store "lift1" "h=1000|door_val=1"
                         ([0; 3000]%Z, []) 5 "lift2" H))).
Defined.

Lemma check_alarm_env_events_witness :
  exists evs als,
    (check_alarm empty_store "lift1" "h=1000|temperature=60" ([0; 3000]%Z, []) 5).2
      = Some (evs, als) /\
    List.filter (fun e => String.eqb (ev_code e) "TEMPERATURE_HIGH") evs
      = [env_event "TEMPERATURE_HIGH" 60].
Proof.
  destruct (check_alarm empty_store "lift1" "h=1000|temperature=60" ([0; 3000]%Z, []) 5).2
    as [[evs als]|] eqn:E.
  - exists evs, als. split; [reflexivity|].
    rewrite (proj1 (check_alarm_env_events empty_store "lift1" "h=1000|temperature=60"
                      ([0; 3000]%Z, []) 5 evs als E)).
    vm_compute. reflexivity.
  - vm_compute in E. discriminate E.
Defined.

Lemma process_sample_counter_delta_witness :
  (fun _ : string => (Some "2", Some 1000%Q, Some true)) "fl=2|h=1000|door=1"
    = (Some "2", Some 1000%Q, Some true) /\
  lc_count (inmem (process_pack_out_sample true 50 (fun _ => "2026-01-01")
                     (fun _ => (Some "2", Some 1000%Q, Some true))
                     counter_world "dev1" 200 "fl=2|h=1000|door=1"))
    (_door_key "2026-01-01" "dev1") "2" = 1%Z.
Proof.
  assert (H1 : (fun _ : string => (Some "2", Some 1000%Q, Some true)) "fl=2|h=1000|door=1"
               = (Some "2", Some 1000%Q, Some true)) by reflexivity.
  assert (H2 : (Some "2", Some 1000%Q, Some true)
               <> (@None string, @None Q, @None bool)) by discriminate.
  assert (H3 : (match state_inmem counter_world !! "dev1" with
                | Some s => st_ts s | None => 0%Z end < 200)%Z) by (vm_compute; reflexivity).
  split; [exact H1|].
  pose proof (process_sample_counter_delta 50 (fun _ => "2026-01-01")
                (fun _ => (Some "2", Some 1000%Q, Some true)) counter_world "dev1" 200
                "fl=2|h=1000|door=1" (Some "2") (Some 1000%Q) (Some true)
                (_door_key "2026-01-01" "dev1") "2" H1 H2 H3) as E.
  cbv zeta in E. rewrite E. vm_compute. reflexivity.
Defined.

Lemma flush_day_to_tb_effect_witness :
  no_char ":" "2026-01-01" /\ no_char ":" "dev1" /\
  "dev1" ∈ flush_candidates flush_sample "2026-01-01".
Proof.
  assert (H1 : no_char ":" "2026-01-01") by (apply no_char_of_forallb; reflexivity).
  assert (H2 : no_char ":" "dev1") by (apply no_char_of_forallb; reflexivity).
  assert (H3 : is_Some (flush_sample !! _door_key "2026-01-01" "dev1") \/
               is_Some (flush_sample !! _idle_key "2026-01-01" "dev1"))
    by (left; vm_compute; eexists; reflexivity).
  split; [exact H1|]. split; [exact H2|].
  exact (proj2 (proj2 (proj2 (flush_day_to_tb_effect (fun _ _ _ => true) flush_sample "2026-01-01")))
           "dev1" H1 H2 H3).
Defined.

Lemma floor_meta_shape_witness :
  (floor_meta_attrs None).1.2 = [] /\
  (_get_floor_meta None).1.2 = map string_of_nat (seq 0 6).
Proof.
  assert (H : (floor_meta_attrs None).1.2 = []) by reflexivity.
  split; [exact H|].
  exact (proj1 (proj2 (proj2 (floor_meta_shape None 0))) H).
Defined.
